(** * metric-collector: counters, persistence protocol and shutdown

    A shallow embedding of the two programs of the repository,
    [input-tracker.py] (module [IT]) and [metric-collector.py]
    (module [MC]).  They share the vocabulary, the [Metrics] data class
    and the database gateway; they differ in the start-up code and in
    the key-press handler.

    Conventions.
    - A Python [dict] with string keys is a [gmap string _]; a Python
      [set] of strings is a [gset string].
    - Python integers are unbounded: counts are in [Z].
    - The table [key_presses] is a finite map from its primary key
      [input_name] to the remaining columns of the row.  A store without
      the table is the empty map: [CREATE TABLE IF NOT EXISTS] turns the
      one into the other and leaves an existing table alone.
    - [datetime.now()] and SQL [NOW()] are inputs: every operation that
      reads the clock takes the formatted time as an argument.
    - [print] and the other observable effects are appended to a log. *)

From stdpp Require Import base gmap strings list fin_maps sorting pretty.
From Stdlib Require Import ZArith Lia.

Local Open Scope string_scope.
Local Open Scope list_scope.
Local Open Scope Z_scope.

(** ** Characters that cannot be written inside a string literal *)

Definition chr (n : nat) : string := String (Ascii.ascii_of_nat n) EmptyString.
Definition nl : string := chr 10.
Definition dquote : string := chr 34.
Definition backslash : string := chr 92.

(** ** Constants *)

Definition SPECIAL_KEYS : gset string := list_to_set [
  "shift"; "shift_r"; "shift_l"; "ctrl"; "ctrl_r"; "ctrl_l";
  "alt"; "alt_r"; "alt_l"; "cmd"; "cmd_r"; "cmd_l";
  "enter"; "backspace"; "delete"; "space"; "tab"; "caps_lock";
  "esc"; "up"; "down"; "left"; "right";
  "page_up"; "page_down"; "home"; "end";
  "insert"; "num_lock"; "scroll_lock";
  "f1"; "f2"; "f3"; "f4"; "f5"; "f6";
  "f7"; "f8"; "f9"; "f10"; "f11"; "f12" ].

Definition REGULAR_KEYS : gset string := list_to_set [
  "a"; "b"; "c"; "d"; "e"; "f"; "g"; "h"; "i"; "j";
  "k"; "l"; "m"; "n"; "o"; "p"; "q"; "r"; "s"; "t";
  "u"; "v"; "w"; "x"; "y"; "z";
  "0"; "1"; "2"; "3"; "4"; "5"; "6"; "7"; "8"; "9";
  "`"; "-"; "="; "["; "]"; backslash; ";"; "'"; ","; "."; "/";
  "~"; "!"; "@"; "#"; "$"; "%"; "^"; "&"; "*"; "("; ")";
  "_"; "+"; "{"; "}"; "|"; ":"; dquote; "<"; ">"; "?" ].

Definition MOUSE_BUTTONS : gset string :=
  list_to_set [ "mouse_left"; "mouse_right"; "mouse_middle" ].

Definition ALL_INPUTS : gset string :=
  SPECIAL_KEYS ∪ REGULAR_KEYS ∪ MOUSE_BUTTONS.

(** ** Python values the handlers format *)

(** [key_str] is either a string or [None] (a [KeyCode] whose [char]
    is [None]). *)
Inductive pystr :=
  | PyNone
  | PyStr (s : string).

#[global] Instance pystr_eq_dec : EqDecision pystr.
Proof. solve_decision. Defined.

(** [str(x)] / the [{x}] of an f-string. *)
Definition py_format (v : pystr) : string :=
  match v with
  | PyNone => "None"
  | PyStr s => s
  end.

Definition str_int (z : Z) : string := pretty z.

(** [s.startswith(p)] *)
Definition startswith (s p : string) : bool := String.prefix p s.

(** [s.replace(old, new)] for a non-empty [old]: occurrences are replaced
    from left to right and do not overlap.  [skip] counts the characters
    of the occurrence being dropped. *)
Fixpoint replace_from (old new : string) (skip : nat) (s : string) : string :=
  match s with
  | EmptyString => EmptyString
  | String c s' =>
      match skip with
      | S n => replace_from old new n s'
      | O =>
          if String.prefix old s
          then new +:+ replace_from old new (Nat.pred (String.length old)) s'
          else String c (replace_from old new O s')
      end
  end.

Definition replace (s old new : string) : string := replace_from old new O s.

(** ** Data class [Metrics] *)

Record Metrics := mkMetrics {
  input_counts : gmap string Z;
  last_updated : option string
}.

(** [self.input_counts.get(k, 0)] *)
Definition get0 (d : gmap string Z) (k : string) : Z := default 0 (d !! k).

(** [sum(count for key, count in self.input_counts.items()
        if not key.startswith("mouse_"))] *)
Definition total_key_presses (d : gmap string Z) : Z :=
  map_fold (λ key count acc, if startswith key "mouse_" then acc else acc + count) 0 d.

Definition fmt_last_updated (o : option string) : string :=
  match o with
  | None => "None"
  | Some s => s
  end.

(** [Metrics.__str__] *)
Definition Metrics_str (self : Metrics) : string :=
  let mouse_stats :=
    "Mouse Clicks - " +:+
    "L: [" +:+ str_int (get0 (input_counts self) "mouse_left") +:+ "] " +:+
    "R: [" +:+ str_int (get0 (input_counts self) "mouse_right") +:+ "] " +:+
    "M: [" +:+ str_int (get0 (input_counts self) "mouse_middle") +:+ "]" in
  let key_stats :=
    "Total key presses: " +:+ str_int (total_key_presses (input_counts self)) in
  mouse_stats +:+ nl +:+ key_stats +:+ nl +:+
  "Last updated: " +:+ fmt_last_updated (last_updated self).

(** ** The world the program runs in *)

(** A row of [key_presses] without its primary key. *)
Record Row := mkRow {
  press_count : Z;
  row_last_updated : string
}.

(** Where a call to the store can fail.  A failing [execute] inside a
    transaction is observed like a failing [commit]: nothing is written. *)
Inductive fault :=
  | ConnectFails
  | CommitFails
  | QueryFails.

#[global] Instance fault_eq_dec : EqDecision fault.
Proof. solve_decision. Defined.

Inductive exn :=
  | OperationalError (f : fault)
  | KeyError (k : string).

#[global] Instance exn_eq_dec : EqDecision exn.
Proof. solve_decision. Defined.

#[global] Instance Row_eq_dec : EqDecision Row.
Proof. solve_decision. Defined.

(** [press_count INTEGER]: the column of the table [setup_database]
    creates holds the 32-bit integers; the engine refuses any other
    count. *)
Definition fits_column (c : Z) : Prop := -2147483648 ≤ c ∧ c ≤ 2147483647.

#[global] Instance fits_column_dec c : Decision (fits_column c).
Proof. unfold fits_column. apply _. Defined.

(** Every counter of the table fits the column. *)
Definition table_fits (d : gmap string Z) : Prop :=
  map_Forall (λ _ c, fits_column c) d.

(** Rows as the table can hold them. *)
Definition column_ok (rows : gmap string Row) : Prop :=
  map_Forall (λ _ r, fits_column (press_count r)) rows.

(** Observable effects, in the order they happen. *)
Inductive effect :=
  | Print (line : string)
  | Committed (rows : gmap string Row)
  | ExitProcess (code : Z).

#[global] Instance effect_eq_dec : EqDecision effect.
Proof. solve_decision. Defined.

(** [store] holds the committed rows, [conn] the view of the open
    connection's transaction ([None]: not connected). *)
Record World := mkWorld {
  metrics : Metrics;
  store : gmap string Row;
  conn : option (gmap string Row);
  store_fault : option fault;
  log : list effect
}.

(** ** Computations: state, exceptions and [os._exit] *)

Inductive outcome (A : Type) :=
  | Return (a : A)
  | Raised (e : exn)
  | Exited (code : Z).
Arguments Return {A} a.
Arguments Raised {A} e.
Arguments Exited {A} code.

#[global] Instance outcome_eq_dec {A} `{EqDecision A} : EqDecision (outcome A).
Proof. solve_decision. Defined.

Definition M (A : Type) : Type := World → outcome A * World.

#[global] Instance M_ret : MRet M := λ A a w, (Return a, w).
#[global] Instance M_bind : MBind M := λ A B f c w,
  match c w with
  | (Return a, w') => f a w'
  | (Raised e, w') => (Raised e, w')
  | (Exited n, w') => (Exited n, w')
  end.

Definition raise {A} (e : exn) : M A := λ w, (Raised e, w).
Definition get_world : M World := λ w, (Return w, w).
Definition put_world (w : World) : M unit := λ _, (Return (), w).
Definition modify (f : World → World) : M unit := λ w, (Return (), f w).

Definition set_metrics (m : Metrics) (w : World) : World :=
  mkWorld m (store w) (conn w) (store_fault w) (log w).
Definition set_store (s : gmap string Row) (w : World) : World :=
  mkWorld (metrics w) s (conn w) (store_fault w) (log w).
Definition set_conn (c : option (gmap string Row)) (w : World) : World :=
  mkWorld (metrics w) (store w) c (store_fault w) (log w).
Definition emit (e : effect) (w : World) : World :=
  mkWorld (metrics w) (store w) (conn w) (store_fault w) (log w ++ [e]).

Definition print (line : string) : M unit := modify (emit (Print line)).

(** [os._exit(code)] *)
Definition os_exit {A} (code : Z) : M A :=
  λ w, (Exited code, emit (ExitProcess code) w).

(** Fails when the store has fault [f]. *)
Definition may_fail (f : fault) : M unit := λ w,
  if decide (store_fault w = Some f) then (Raised (OperationalError f), w)
  else (Return (), w).

(** [for x in l: body x] *)
Fixpoint for_each {A} (l : list A) (body : A → M unit) : M unit :=
  match l with
  | [] => mret ()
  | x :: l' => body x ;; for_each l' body
  end.

(** ** Database gateway (class [Database] / [DatabaseManager]) *)

(** [connect]: opens a connection; its transaction starts from the
    committed rows.  A connection that was still open is dropped with
    whatever it had not committed. *)
Definition connect : M unit :=
  may_fail ConnectFails ;;
  w ← get_world;
  put_world (set_conn (Some (store w)) w).

(** [disconnect] *)
Definition disconnect : M unit := modify (set_conn None).

(** [self.cur.execute(...)] of a statement that writes: [f] is applied
    to the view of the open transaction. *)
Definition execute (f : gmap string Row → gmap string Row) : M unit :=
  modify (λ w, set_conn (f <$> conn w) w).

(** [self.conn.commit()] *)
Definition commit : M unit :=
  may_fail CommitFails ;;
  w ← get_world;
  match conn w with
  | Some rows => put_world (emit (Committed rows) (set_store rows w))
  | None => mret ()
  end.

(** [self.cur.execute("SELECT ...")] followed by [fetchall()] *)
Definition query : M (gmap string Row) :=
  may_fail QueryFails ;;
  w ← get_world;
  mret (default (store w) (conn w)).

(** [INSERT ... VALUES (id, 0, NOW()) ON CONFLICT (input_name) DO NOTHING] *)
Definition insert_do_nothing (id : string) (now : string)
    (rows : gmap string Row) : gmap string Row :=
  match rows !! id with
  | Some _ => rows
  | None => <[id := mkRow 0 now]> rows
  end.

(** [INSERT ... VALUES (input_name, press_count, last_updated)
     ON CONFLICT (input_name) DO UPDATE SET press_count = EXCLUDED.press_count,
     last_updated = EXCLUDED.last_updated].  The rows are those of a
    table that exists, and the count is written as it is: a statement
    the engine refuses (the table is missing, the count does not fit
    the column, see [fits_column]) is a store fault here. *)
Definition insert_do_update (input_name : string) (count : Z) (ts : string)
    (rows : gmap string Row) : gmap string Row :=
  <[input_name := mkRow count ts]> rows.

(** [_initialize_inputs] *)
Definition _initialize_inputs (now : string) : M unit :=
  for_each (elements ALL_INPUTS) (λ id, execute (insert_do_nothing id now)) ;;
  commit.

(** [load_data] / [load_previous_data] *)
Definition load_data : M (gmap string Z) :=
  connect ;;
  rows ← query;
  let data := press_count <$> rows in
  disconnect ;;
  mret data.

(** Rows with [press_count > 0], [ORDER BY press_count DESC]; the order
    among equal counts is the engine's, here the one of a stable sort. *)
Definition count_desc (x y : string * Row) : Prop :=
  press_count y.2 ≤ press_count x.2.

#[global] Instance count_desc_dec x y : Decision (count_desc x y).
Proof. unfold count_desc. apply _. Defined.

Definition report_rows (rows : gmap string Row) : list (string * Row) :=
  merge_sort count_desc
    (filter (λ x, 0 < press_count x.2) (map_to_list rows)).

(** [f"Input: {row[0]}, Count: {row[1]}, Last Updated: {row[2]}"] *)
Definition fmt_row (row : string * Row) : string :=
  "Input: " +:+ row.1 +:+ ", Count: " +:+ str_int (press_count row.2)
  +:+ ", Last Updated: " +:+ row_last_updated row.2.

(** [_print_current_counts] *)
Definition _print_current_counts : M unit :=
  rows ← query;
  print (nl +:+ "Current Input Counts:") ;;
  for_each (report_rows rows) (λ row, print (fmt_row row)).

(** [save_data] / [save_metrics].  [data] is the shared [metrics] object:
    the loop reads [data.input_counts] as it is when the call runs. *)
Definition save_data (now : string) : M unit :=
  connect ;;
  modify (λ w, set_metrics (mkMetrics (input_counts (metrics w)) (Some now)) w) ;;
  w ← get_world;
  for_each (map_to_list (input_counts (metrics w))) (λ item,
    execute (insert_do_update item.1 item.2 now)) ;;
  commit ;;
  _print_current_counts ;;
  disconnect.

(** ** Input events (pynput) *)

(** A key is a [KeyCode], which has the attribute [char] (possibly
    [None]), or a member of the enumeration [Key], which has not and
    which [str] renders as [Key.<name>]. *)
Inductive key :=
  | KeyCode (char : option string)
  | Key (name : string).

Inductive Button :=
  | Button_left
  | Button_right
  | Button_middle
  | Button_other.

(** [key.char if hasattr(key, 'char') else str(key).replace('Key.', '')] *)
Definition key_str (k : key) : pystr :=
  match k with
  | KeyCode None => PyNone
  | KeyCode (Some c) => PyStr c
  | Key name => PyStr (replace ("Key." +:+ name) "Key." "")
  end.

(** [key == keyboard.Key.esc] *)
Definition is_esc (k : key) : bool :=
  match k with
  | Key name => bool_decide (name = "esc")
  | KeyCode _ => false
  end.

(** [key_str in d] *)
Definition contains (d : gmap string Z) (v : pystr) : bool :=
  match v with
  | PyNone => false
  | PyStr s => bool_decide (is_Some (d !! s))
  end.

(** [metrics.input_counts[k] += 1]; raises [KeyError] when [k] is absent. *)
Definition increment (k : string) : M unit :=
  w ← get_world;
  match input_counts (metrics w) !! k with
  | Some c =>
      put_world (set_metrics
        (mkMetrics (<[k := c + 1]> (input_counts (metrics w)))
                   (last_updated (metrics w))) w)
  | None => raise (KeyError k)
  end.

(** [on_click] / [_on_click] *)
Definition on_click (button : Button) (pressed : bool) : M unit :=
  if pressed then
    match button with
    | Button_left => increment "mouse_left"
    | Button_right => increment "mouse_right"
    | Button_middle => increment "mouse_middle"
    | Button_other => mret ()
    end
  else mret ().

Definition all_zero : gmap string Z := gset_to_gmap 0 ALL_INPUTS.

(** ** [input-tracker.py] *)
Module IT.

(** [Database.setup_database] *)
Definition setup_database : M unit :=
  connect ;;
  (* CREATE TABLE IF NOT EXISTS key_presses *)
  commit.

(** [main], up to the point where the threads are started. *)
Definition main_startup (now : string) : M unit :=
  modify (set_metrics (mkMetrics all_zero None)) ;;
  setup_database ;;
  _initialize_inputs now ;;
  previous_data ← load_data;
  modify (λ w, set_metrics
    (mkMetrics (previous_data ∪ input_counts (metrics w))
               (last_updated (metrics w))) w).

(** [on_press] *)
Definition on_press (now : string) (k : key) : M unit :=
  let key_str := key_str k in
  w ← get_world;
  (if contains (input_counts (metrics w)) key_str
   then match key_str with
        | PyStr s => increment s
        | PyNone => mret ()
        end
   else print ("Unknown key: " +:+ py_format key_str)) ;;
  if is_esc k then
    print "Stopping program..." ;;
    w ← get_world;
    print ("Total metrics for the current session: " +:+ " "
           +:+ Metrics_str (metrics w)) ;;
    (* Save final metrics before exiting *)
    save_data now ;;
    os_exit 0
  else mret ().

End IT.

(** ** [metric-collector.py] *)
Module MC.

(** [DatabaseManager.setup_database] *)
Definition setup_database (now : string) : M unit :=
  connect ;;
  (* _create_tables: CREATE TABLE IF NOT EXISTS key_presses *)
  commit ;;
  _initialize_inputs now ;;
  disconnect.

Definition load_previous_data : M (gmap string Z) := load_data.
Definition save_metrics : string → M unit := save_data.
Definition _on_click : Button → bool → M unit := on_click.

(** [InputTracker.__init__] followed by [InputTracker.setup] *)
Definition setup (now : string) : M unit :=
  modify (set_metrics (mkMetrics all_zero None)) ;;
  setup_database now ;;
  previous_data ← load_previous_data;
  modify (λ w, set_metrics
    (mkMetrics (previous_data ∪ input_counts (metrics w))
               (last_updated (metrics w))) w) ;;
  print "Previous data:" ;;
  w ← get_world;
  print (Metrics_str (metrics w)).

(** [InputTracker._on_key_press] *)
Definition _on_key_press (now : string) (k : key) : M unit :=
  let key_str := key_str k in
  w ← get_world;
  (if contains (input_counts (metrics w)) key_str
   then match key_str with
        | PyStr s => increment s
        | PyNone => mret ()
        end
   else mret ()) ;;
  if is_esc k then
    print "Stopping program..." ;;
    w ← get_world;
    print ("Total metrics for the current session: " +:+ " "
           +:+ Metrics_str (metrics w)) ;;
    (* Save final metrics before exiting *)
    save_metrics now ;;
    os_exit 0
  else mret ().

End MC.

(** ** The running process: two listeners and the saving thread *)

Inductive program :=
  | InputTracker      (* input-tracker.py *)
  | MetricCollector.  (* metric-collector.py *)

Definition startup (p : program) (now : string) : M unit :=
  match p with
  | InputTracker => IT.main_startup now
  | MetricCollector => MC.setup now
  end.

Definition key_handler (p : program) : string → key → M unit :=
  match p with
  | InputTracker => IT.on_press
  | MetricCollector => MC._on_key_press
  end.

(** The saving thread ([save_metrics] / [_start_save_data]) sleeps, or is
    inside [save_data] with the keys its loop has not visited yet and
    the time stamp it took, or has died of an exception. *)
Inductive saver_state :=
  | Sleeping
  | Flushing (pending : list string) (ts : string)
  | SaverDead.

Record System := mkSystem {
  world : World;
  saver : saver_state;
  keyboard_alive : bool;
  mouse_alive : bool;
  exit_code : option Z
}.

(** The three stretches of [save_data] between which the other threads
    can run: up to the creation of the loop's iterator, one turn of the
    loop, and what follows the loop.  The iterator of [items()] reads a
    value when it reaches its key, so a turn takes the count the table
    holds at that moment. *)
Definition flush_begin (now : string) : M (list string) :=
  connect ;;
  modify (λ w, set_metrics (mkMetrics (input_counts (metrics w)) (Some now)) w) ;;
  w ← get_world;
  mret (map_to_list (input_counts (metrics w))).*1.

Definition flush_row (input_name : string) (now : string) : M unit :=
  w ← get_world;
  match input_counts (metrics w) !! input_name with
  | Some count => execute (insert_do_update input_name count now)
  | None => mret ()
  end.

Definition flush_end : M unit :=
  commit ;;
  _print_current_counts ;;
  disconnect.

Inductive event :=
  | KeyPress (now : string) (k : key)       (* keyboard listener calls the handler *)
  | Click (button : Button) (pressed : bool) (* mouse listener calls [on_click] *)
  | FlushBegin (now : string)               (* saving thread wakes up *)
  | FlushRow                                (* one turn of the loop of [save_data] *)
  | FlushEnd                                (* the rest of [save_data] *)
  | SetFault (f : option fault).            (* the store breaks or recovers *)

Definition set_world (w : World) (s : System) : System :=
  mkSystem w (saver s) (keyboard_alive s) (mouse_alive s) (exit_code s).
Definition set_saver (sv : saver_state) (s : System) : System :=
  mkSystem (world s) sv (keyboard_alive s) (mouse_alive s) (exit_code s).
Definition set_fault (f : option fault) (w : World) : World :=
  mkWorld (metrics w) (store w) (conn w) f (log w).

(** A listener whose callback raises is stopped by pynput; [os._exit]
    ends the process.  The main thread waits in [mouse_listener.join()]:
    an exception of the keyboard callback is not seen there and the
    process goes on without the keyboard listener. *)
Definition after_key (s : System) (r : outcome unit * World) : System :=
  match r.1 with
  | Return _ => set_world r.2 s
  | Raised _ => mkSystem r.2 (saver s) false (mouse_alive s) (exit_code s)
  | Exited n => mkSystem r.2 (saver s) (keyboard_alive s) (mouse_alive s) (Some n)
  end.

(** An exception of the mouse callback stops the mouse listener and is
    raised again by [mouse_listener.join()] in the main thread, where
    nothing catches it: the process ends with status 1. *)
Definition after_click (s : System) (r : outcome unit * World) : System :=
  match r.1 with
  | Return _ => set_world r.2 s
  | Raised _ => mkSystem r.2 (saver s) (keyboard_alive s) false (Some 1)
  | Exited n => mkSystem r.2 (saver s) (keyboard_alive s) (mouse_alive s) (Some n)
  end.

(** An exception in [save_data] ends the saving thread. *)
Definition after_flush {A} (next : A → saver_state) (s : System)
    (r : outcome A * World) : System :=
  match r.1 with
  | Return a => set_saver (next a) (set_world r.2 s)
  | Raised _ => set_saver SaverDead (set_world r.2 s)
  | Exited n => mkSystem r.2 (saver s) (keyboard_alive s) (mouse_alive s) (Some n)
  end.

(** One atomic step.  An event that cannot happen in [s] leaves it as
    it is; nothing happens once the process has exited.  A handler runs
    from its first statement to its last in one step, the [save_data] of
    the stop key included, while the [save_data] of the saving thread is
    cut into its loop turns.  Both calls use the one gateway object and
    no lock: the schedules in which the saving thread runs between two
    statements of the handler's [save_data] are not among those of
    [run], and a statement about the final flush holds of the code only
    where the saving thread stays out of [save_data] meanwhile. *)
Definition step (p : program) (e : event) (s : System) : System :=
  match exit_code s with
  | Some _ => s
  | None =>
      match e with
      | KeyPress now k =>
          if keyboard_alive s then after_key s (key_handler p now k (world s)) else s
      | Click button pressed =>
          if mouse_alive s then after_click s (on_click button pressed (world s)) else s
      | FlushBegin now =>
          match saver s with
          | Sleeping => after_flush (λ keys, Flushing keys now) s (flush_begin now (world s))
          | _ => s
          end
      | FlushRow =>
          match saver s with
          | Flushing (k :: rest) ts =>
              after_flush (λ _, Flushing rest ts) s (flush_row k ts (world s))
          | _ => s
          end
      | FlushEnd =>
          match saver s with
          | Flushing [] ts => after_flush (λ _, Sleeping) s (flush_end (world s))
          | _ => s
          end
      | SetFault f => set_world (set_fault f (world s)) s
      end
  end.

Definition run (p : program) (evs : list event) (s : System) : System :=
  foldl (λ s e, step p e s) s evs.

(** The process after start-up on a store holding [rows].  An exception
    in start-up ends the process with status 1. *)
Definition boot (p : program) (now : string) (rows : gmap string Row)
    (f : option fault) : System :=
  let r := startup p now (mkWorld (mkMetrics ∅ None) rows None f []) in
  match r.1 with
  | Return _ => mkSystem r.2 Sleeping true true None
  | Raised _ => mkSystem r.2 SaverDead false false (Some 1)
  | Exited n => mkSystem r.2 SaverDead false false (Some n)
  end.

(** The counter table and the durable counts of a system. *)
Definition table (s : System) : gmap string Z := input_counts (metrics (world s)).
Definition durable (s : System) : gmap string Z := press_count <$> store (world s).

Definition scenario : list event :=
  [ KeyPress "t1" (KeyCode (Some "a")); KeyPress "t2" (KeyCode (Some "a"));
    KeyPress "t3" (KeyCode (Some "a"));
    Click Button_left true; Click Button_left true;
    KeyPress "t4" (Key "esc") ].
(** ** Pure views of the handlers and the gateway's loops, used to state
    the theorems *)

(** The table after the counting branch of a key handler saw [k]. *)
Definition bump (d : gmap string Z) (k : string) : gmap string Z :=
  match d !! k with
  | Some c => <[k := c + 1]> d
  | None => d
  end.

(** The line the shutdown branch prints for the metrics [m]. *)
Definition session_summary (m : Metrics) : effect :=
  Print ("Total metrics for the current session: " +:+ " " +:+ Metrics_str m).

(** The rows after the loop of [save_data] over the table [d]. *)
Definition saved (now : string) (d : gmap string Z)
    (rows : gmap string Row) : gmap string Row :=
  foldl (λ acc item, insert_do_update item.1 item.2 now acc) rows (map_to_list d).

(** The rows after the loop of [_initialize_inputs]. *)
Definition initialized (now : string) (rows : gmap string Row) : gmap string Row :=
  foldl (λ acc id, insert_do_nothing id now acc) rows (elements ALL_INPUTS).

(** What [_print_current_counts] prints. *)
Definition report_lines (rows : gmap string Row) : list effect :=
  Print (nl +:+ "Current Input Counts:") ::
  map (λ row, Print (fmt_row row)) (report_rows rows).

(** What [save_data] returns and leaves behind, by the store's fault. *)
Definition save_data_result (now : string) (w : World) : outcome unit * World :=
  let m' := mkMetrics (input_counts (metrics w)) (Some now) in
  let rows' := saved now (input_counts (metrics w)) (store w) in
  match store_fault w with
  | Some ConnectFails => (Raised (OperationalError ConnectFails), w)
  | Some CommitFails =>
      (Raised (OperationalError CommitFails),
       mkWorld m' (store w) (Some rows') (Some CommitFails) (log w))
  | Some QueryFails =>
      (Raised (OperationalError QueryFails),
       mkWorld m' rows' (Some rows') (Some QueryFails) (log w ++ [Committed rows']))
  | None =>
      (Return (),
       mkWorld m' rows' None None (log w ++ Committed rows' :: report_lines rows'))
  end.


(** The summary line of a session with the given counts and no flush
    before the stop key. *)
Definition summary_line (left right middle keys : string) : effect :=
  Print ("Total metrics for the current session: " +:+ " " +:+
         "Mouse Clicks - L: [" +:+ left +:+ "] R: [" +:+ right +:+
         "] M: [" +:+ middle +:+ "]" +:+ nl +:+
         "Total key presses: " +:+ keys +:+ nl +:+
         "Last updated: None").

(** ** Views of the final flush *)

(** The saving thread is inside a call of [save_data]. *)
Definition in_save_data (s : System) : bool :=
  match saver s with
  | Flushing _ _ => true
  | _ => false
  end.

(** [lines] is what [_print_current_counts] may print for [rows]: the
    heading, then one line for each row with a positive count, each row
    once, by descending count.  The order among equal counts is the
    engine's and is left open. *)
Definition is_report (rows : gmap string Row) (lines : list effect) : Prop :=
  ∃ l : list (string * Row),
    lines = Print (nl +:+ "Current Input Counts:")
              :: map (λ row, Print (fmt_row row)) l ∧
    l ≡ₚ filter (λ x, 0 < press_count x.2) (map_to_list rows) ∧
    StronglySorted count_desc l.

(** ** Counting the key presses of a schedule *)

(** The number of [KeyPress] events. *)
Fixpoint presses (evs : list event) : nat :=
  match evs with
  | [] => 0
  | KeyPress _ _ :: rest => S (presses rest)
  | _ :: rest => presses rest
  end.

(** The key presses a live keyboard listener handles: all of them up to
    and including the first stop key. *)
Fixpoint handled_presses (evs : list event) : nat :=
  match evs with
  | [] => 0
  | KeyPress _ k :: rest => if is_esc k then 1 else S (handled_presses rest)
  | _ :: rest => handled_presses rest
  end.

(** [e] is a key press resolving to [id], or a step of the saving thread
    or of the store. *)
Definition press_of (id : string) (e : event) : Prop :=
  match e with
  | KeyPress _ k => key_str k = PyStr id
  | Click _ _ => False
  | _ => True
  end.

Definition not_stop_key (e : event) : Prop :=
  match e with
  | KeyPress _ k => is_esc k = false
  | _ => True
  end.

(** ** Orders between durable rows and the counter table *)

(** Every row of [r1] is in [r2] with a count at least as large. *)
Definition rows_le (r1 r2 : gmap string Row) : Prop :=
  ∀ id x, r1 !! id = Some x →
    ∃ y, r2 !! id = Some y ∧ press_count x ≤ press_count y.

(** Every row of [r] has a counter in [d] at least as large. *)
Definition below_table (r : gmap string Row) (d : gmap string Z) : Prop :=
  ∀ id x, r !! id = Some x → ∃ c, d !! id = Some c ∧ press_count x ≤ c.

(** The committed rows and the rows of the open transaction are below
    the counter table, and the transaction is above what is committed. *)
Definition consistent (w : World) : Prop :=
  below_table (store w) (input_counts (metrics w)) ∧
  match conn w with
  | Some v => rows_le (store w) v ∧ below_table v (input_counts (metrics w))
  | None => True
  end.

(** The events that can happen while the saving thread is inside one
    call of [save_data]. *)
Definition during_flush (e : event) : Prop :=
  match e with
  | KeyPress _ _ | Click _ _ | FlushRow => True
  | _ => False
  end.

#[global] Instance during_flush_dec e : Decision (during_flush e).
Proof. destruct e; simpl; apply _. Defined.

(** What happens inside a flush that writes its first row, is overtaken
    by two key presses, and then writes its other 112 rows. *)
Definition torn_middle : list event :=
  FlushRow ::
  KeyPress "t2" (KeyCode (Some "?")) :: KeyPress "t3" (KeyCode (Some "_")) ::
  replicate 112 FlushRow.

Definition torn_schedule : list event :=
  FlushBegin "t1" :: torn_middle ++ [FlushEnd].

(** The state of a system whose saving thread is inside the call of
    [save_data] that began at time [now] on the table [d0]: no counter
    is below its value in [d0], and every row the loop has written
    carries a count its counter held at some moment since the call
    began. *)
Definition flush_window (d0 : gmap string Z) (now : string) (s : System) : Prop :=
  store_fault (world s) = None ∧
  (∀ id c0, d0 !! id = Some c0 → ∃ c2, table s !! id = Some c2 ∧ c0 ≤ c2) ∧
  ∃ written pending v,
    saver s = Flushing pending now ∧
    (map_to_list d0).*1 = written ++ pending ∧
    conn (world s) = Some v ∧
    ∀ id, id ∈ written →
      ∃ c c0 c2, v !! id = Some (mkRow c now) ∧ d0 !! id = Some c0 ∧
                 table s !! id = Some c2 ∧ c0 ≤ c ≤ c2.

(** ** Views used by the further properties *)

(** The counter [on_click] touches for a button. *)
Definition button_id (b : Button) : option string :=
  match b with
  | Button_left => Some "mouse_left"
  | Button_right => Some "mouse_right"
  | Button_middle => Some "mouse_middle"
  | Button_other => None
  end.

(** A mouse event [on_click] does nothing for: a release, or a button
    other than left, right and middle. *)
Definition ignored_click (e : event) : Prop :=
  match e with
  | Click button pressed => pressed = false ∨ button = Button_other
  | _ => False
  end.

(** The letter K, with which [Key.] begins. *)
Definition capital_K : Ascii.ascii := Ascii.ascii_of_nat 75.

(** The effects other than printed lines, in order. *)
Fixpoint unprinted (lg : list effect) : list effect :=
  match lg with
  | [] => []
  | Print _ :: lg' => unprinted lg'
  | e :: lg' => e :: unprinted lg'
  end.

(** A world and a process without what they printed. *)
Definition silent (w : World) : World :=
  mkWorld (metrics w) (store w) (conn w) (store_fault w) (unprinted (log w)).

Definition silent_system (s : System) : System :=
  mkSystem (silent (world s)) (saver s) (keyboard_alive s) (mouse_alive s)
    (exit_code s).
(** * Theorems *)

(** ** The monad *)

Ltac munfold :=
  unfold mbind, M_bind, mret, M_ret, raise, get_world, put_world, modify,
         print, os_exit, may_fail.

Lemma bind_eq {A B} (c : M A) (f : A → M B) (w : World) :
  (c ≫= f) w =
  match c w with
  | (Return a, w') => f a w'
  | (Raised e, w') => (Raised e, w')
  | (Exited n, w') => (Exited n, w')
  end.
Proof. reflexivity. Qed.

Lemma may_fail_eq f w :
  may_fail f w =
  if decide (store_fault w = Some f) then (Raised (OperationalError f), w)
  else (Return (), w).
Proof. reflexivity. Qed.

Lemma may_fail_ok f w : store_fault w ≠ Some f → may_fail f w = (Return (), w).
Proof. intros H. rewrite may_fail_eq. by rewrite decide_False. Qed.

Lemma may_fail_ko f w :
  store_fault w = Some f → may_fail f w = (Raised (OperationalError f), w).
Proof. intros H. rewrite may_fail_eq. by rewrite decide_True. Qed.

Lemma connect_ok w :
  store_fault w ≠ Some ConnectFails →
  connect w = (Return (), set_conn (Some (store w)) w).
Proof. intros H. unfold connect. rewrite bind_eq, may_fail_ok by done. reflexivity. Qed.

Lemma connect_ko w :
  store_fault w = Some ConnectFails →
  connect w = (Raised (OperationalError ConnectFails), w).
Proof. intros H. unfold connect. rewrite bind_eq, may_fail_ko by done. reflexivity. Qed.

Lemma commit_ok w :
  store_fault w ≠ Some CommitFails →
  commit w =
  (Return (),
   match conn w with
   | Some rows => emit (Committed rows) (set_store rows w)
   | None => w
   end).
Proof.
  intros H. unfold commit. rewrite bind_eq, may_fail_ok by done.
  rewrite bind_eq. unfold get_world. by destruct (conn w).
Qed.

Lemma commit_ko w :
  store_fault w = Some CommitFails →
  commit w = (Raised (OperationalError CommitFails), w).
Proof. intros H. unfold commit. rewrite bind_eq, may_fail_ko by done. reflexivity. Qed.

Lemma query_ok w :
  store_fault w ≠ Some QueryFails →
  query w = (Return (default (store w) (conn w)), w).
Proof. intros H. unfold query. rewrite bind_eq, may_fail_ok by done. reflexivity. Qed.

Lemma query_ko w :
  store_fault w = Some QueryFails →
  query w = (Raised (OperationalError QueryFails), w).
Proof. intros H. unfold query. rewrite bind_eq, may_fail_ko by done. reflexivity. Qed.

Lemma modify_eq f w : modify f w = (Return (), f w).
Proof. reflexivity. Qed.

Lemma print_eq line w : print line w = (Return (), emit (Print line) w).
Proof. reflexivity. Qed.

Lemma get_world_eq w : get_world w = (Return w, w).
Proof. reflexivity. Qed.

Lemma disconnect_eq w : disconnect w = (Return (), set_conn None w).
Proof. reflexivity. Qed.

Lemma execute_eq f w : execute f w = (Return (), set_conn (f <$> conn w) w).
Proof. reflexivity. Qed.

Lemma mret_eq {A} (a : A) (w : World) : (mret a : M A) w = (Return a, w).
Proof. reflexivity. Qed.

Lemma os_exit_eq {A} n w : os_exit (A:=A) n w = (Exited n, emit (ExitProcess n) w).
Proof. reflexivity. Qed.

(** One step of symbolic execution: expose the first action of a
    sequence, replace it by its result, project. *)
Ltac wsimpl :=
  unfold emit, set_store, set_conn, set_metrics, set_fault;
  cbn [fst snd metrics store conn store_fault log input_counts last_updated].

Ltac mstep :=
  match goal with
  | |- context [ mbind ?f ?c ?w ] => rewrite (bind_eq c f w)
  | |- context [ modify ?f ?w ] => rewrite (modify_eq f w)
  | |- context [ print ?l ?w ] => rewrite (print_eq l w)
  | |- context [ get_world ?w ] => rewrite (get_world_eq w)
  | |- context [ disconnect ?w ] => rewrite (disconnect_eq w)
  | |- context [ execute ?f ?w ] => rewrite (execute_eq f w)
  | |- context [ mret ?a ?w ] => rewrite (mret_eq a w)
  | |- context [ os_exit ?n ?w ] => rewrite (os_exit_eq n w)
  | |- context [ connect ?w ] => rewrite (connect_ok w) by (wsimpl; congruence)
  | |- context [ commit ?w ] => rewrite (commit_ok w) by (wsimpl; congruence)
  | |- context [ query ?w ] => rewrite (query_ok w) by (wsimpl; congruence)
  | _ => progress wsimpl
  end.

Ltac mrun := repeat mstep.

Lemma for_each_execute {A} (l : list A)
    (f : A → gmap string Row → gmap string Row) (w : World) :
  for_each l (λ x, execute (f x)) w =
  (Return (), set_conn ((λ rows, foldl (λ acc x, f x acc) rows l) <$> conn w) w).
Proof.
  revert w. induction l as [|x l IH]; intros w; simpl.
  - destruct w as [m st [c|] fl lg]; reflexivity.
  - munfold. unfold execute at 1. munfold. rewrite IH.
    destruct w as [m st [c|] fl lg]; reflexivity.
Qed.

Lemma for_each_print {A} (l : list A) (g : A → string) (w : World) :
  for_each l (λ x, print (g x)) w =
  (Return (), mkWorld (metrics w) (store w) (conn w) (store_fault w)
                (log w ++ map (λ x, Print (g x)) l)).
Proof.
  revert w. induction l as [|x l IH]; intros w; simpl.
  - munfold. rewrite app_nil_r. by destruct w.
  - unfold mbind, M_bind. unfold print at 1, modify. rewrite IH.
    unfold emit; simpl. by rewrite <- app_assoc.
Qed.

(** ** The loops of the gateway *)

Lemma saved_lookup now (d : gmap string Z) (rows : gmap string Row) k :
  saved now d rows !! k =
  match d !! k with
  | Some c => Some (mkRow c now)
  | None => rows !! k
  end.
Proof.
  unfold saved.
  rewrite <- (list_to_map_to_list d) at 2.
  pose proof (NoDup_fst_map_to_list d) as Hnd.
  revert rows Hnd. generalize (map_to_list d) as l.
  induction l as [|[k' c'] l IH]; intros rows Hnd; simpl.
  - by rewrite lookup_empty.
  - apply NoDup_cons in Hnd as [Hk' Hnd].
    rewrite IH by done. unfold insert_do_update.
    destruct (decide (k' = k)) as [->|Hne].
    + rewrite lookup_insert_eq.
      rewrite (not_elem_of_list_to_map_1 l k) by done.
      by rewrite lookup_insert_eq.
    + rewrite !lookup_insert_ne by done. reflexivity.
Qed.

Lemma initialized_lookup now (rows : gmap string Row) k :
  initialized now rows !! k =
  match rows !! k with
  | Some r => Some r
  | None => if decide (k ∈ ALL_INPUTS) then Some (mkRow 0 now) else None
  end.
Proof.
  unfold initialized.
  assert (Hin : ∀ x, x ∈ ALL_INPUTS ↔ x ∈ elements ALL_INPUTS)
    by (intros x; by rewrite elem_of_elements).
  destruct (decide (k ∈ ALL_INPUTS)) as [Hk|Hk]; rewrite Hin in Hk; clear Hin;
    revert rows Hk; generalize (elements ALL_INPUTS) as l;
    induction l as [|x l IH]; intros rows Hk; simpl.
  - by apply elem_of_nil in Hk.
  - destruct (decide (x = k)) as [->|Hne].
    + unfold insert_do_nothing at 2.
      destruct (rows !! k) as [r|] eqn:Hr.
      * destruct (decide (k ∈ l)) as [Hl|Hl].
        -- rewrite IH by done. by rewrite Hr.
        -- clear IH Hk. revert rows Hr. induction l as [|y l IH]; intros rows Hr; simpl.
           ++ done.
           ++ apply not_elem_of_cons in Hl as [Hy Hl]. apply IH; [done|].
              unfold insert_do_nothing. destruct (rows !! y); [done|].
              by rewrite lookup_insert_ne.
      * destruct (decide (k ∈ l)) as [Hl|Hl].
        -- rewrite IH by done. by rewrite lookup_insert_eq.
        -- clear IH Hk.
           assert (Hgen : ∀ rows', rows' !! k = Some (mkRow 0 now) →
             foldl (λ acc id, insert_do_nothing id now acc) rows' l !! k
             = Some (mkRow 0 now)).
           { clear rows Hr. induction l as [|y l IH]; intros rows' Hr; simpl; [done|].
             apply not_elem_of_cons in Hl as [Hy Hl]. apply IH; [done|].
             unfold insert_do_nothing. destruct (rows' !! y); [done|].
             by rewrite lookup_insert_ne. }
           apply Hgen. by rewrite lookup_insert_eq.
    + apply elem_of_cons in Hk as [->|Hk]; [done|].
      rewrite IH by done. unfold insert_do_nothing.
      destruct (rows !! x); [done|]. by rewrite lookup_insert_ne.
  - by destruct (rows !! k).
  - apply not_elem_of_cons in Hk as [Hx Hk].
    rewrite IH by done. unfold insert_do_nothing.
    destruct (rows !! x); [done|]. by rewrite lookup_insert_ne.
Qed.

(** ** [save_data], case by case on the store's fault *)

Lemma save_data_spec now w : save_data now w = save_data_result now w.
Proof.
  unfold save_data, save_data_result, connect, commit, _print_current_counts,
    query, disconnect.
  destruct w as [m st c fl lg]; simpl.
  destruct fl as [[]|]; unfold mbind, M_bind, may_fail, modify, get_world, put_world, mret, M_ret; simpl; try reflexivity.
  all: rewrite for_each_execute; simpl; try reflexivity.
  rewrite for_each_print. simpl. unfold report_lines, saved, emit; simpl.
  unfold set_conn; simpl. by rewrite <- !app_assoc.
Qed.

Lemma load_data_ok w :
  store_fault w = None →
  load_data w = (Return (press_count <$> store w), set_conn None w).
Proof.
  intros Hf. unfold load_data, connect, query, disconnect.
  destruct w as [m st c fl lg]; simpl in *; subst fl.
  unfold mbind, M_bind, may_fail, modify, get_world, put_world, mret, M_ret.
  reflexivity.
Qed.

Lemma initialize_inputs_connected now m rows view fl lg :
  fl ≠ Some CommitFails →
  _initialize_inputs now (mkWorld m rows (Some view) fl lg) =
  (Return (),
   mkWorld m (initialized now view) (Some (initialized now view)) fl
     (lg ++ [Committed (initialized now view)])).
Proof.
  intros Hf. unfold _initialize_inputs, commit.
  unfold mbind, M_bind. rewrite for_each_execute. simpl.
  unfold may_fail; simpl. destruct (decide (fl = Some CommitFails)); [done|].
  reflexivity.
Qed.

(** ** Persistence gateway *)

(** C7: [_initialize_inputs] returns normally on every store; afterwards a
    row that existed is unchanged, whatever its count, a missing row of a
    Vocabulary identifier holds count 0, and no other row appears; a
    second run, at any later time, leaves the store as the first run
    left it. *)
Theorem C7_initialize_inputs_idempotent m (rows : gmap string Row) lg now now' :
  let w := mkWorld m rows (Some rows) None lg in
  let r1 := _initialize_inputs now w in
  let r2 := _initialize_inputs now' r1.2 in
  r1.1 = Return () ∧ r2.1 = Return () ∧
  (∀ id, store r1.2 !! id =
         match rows !! id with
         | Some r => Some r
         | None => if decide (id ∈ ALL_INPUTS) then Some (mkRow 0 now) else None
         end) ∧
  store r2.2 = store r1.2.
Proof.
  intros w r1 r2. subst w r1 r2.
  rewrite initialize_inputs_connected by done. simpl.
  rewrite initialize_inputs_connected by done. simpl.
  repeat split.
  - intros id. apply initialized_lookup.
  - apply map_eq. intros id. rewrite !initialized_lookup.
    destruct (rows !! id); [done|]. by destruct (decide (id ∈ ALL_INPUTS)).
Qed.

(** C8 (as the code has it): on a store whose table [setup_database]
    has just created and which holds no row, [save_data] of a counter
    table whose counts fit the INTEGER column returns normally and
    leaves exactly one row per counter, with that count and the time of
    the call; [load_data], run afterwards by any process on the store in
    that state, whatever that process has in memory and whatever its
    connection was, reads these rows and returns exactly the counter
    table that was saved. *)
Theorem C8_save_then_load_round_trip (d : gmap string Z) lu lg now :
  table_fits d →
  let fresh := (IT.setup_database (mkWorld (mkMetrics d lu) ∅ None None lg)).2 in
  let r := save_data now fresh in
  r.1 = Return () ∧
  store r.2 = (λ c, mkRow c now) <$> d ∧
  column_ok (store r.2) ∧
  ∀ m cn lg', (load_data (mkWorld m (store r.2) cn None lg')).1 = Return d.
Proof.
  intros Hd fresh r.
  assert (Hfresh : fresh = mkWorld (mkMetrics d lu) ∅ (Some ∅) None (lg ++ [Committed ∅])).
  { subst fresh. unfold IT.setup_database. mrun. reflexivity. }
  assert (Hst : store r.2 = (λ c, mkRow c now) <$> d).
  { subst r. rewrite Hfresh, save_data_spec. unfold save_data_result.
    cbn [store_fault snd store metrics input_counts].
    apply map_eq. intros k. rewrite lookup_fmap, saved_lookup, lookup_empty.
    by destruct (d !! k). }
  split; [|split; [exact Hst|split]].
  - subst r. rewrite Hfresh, save_data_spec. reflexivity.
  - rewrite Hst. intros k x. rewrite lookup_fmap.
    destruct (d !! k) as [c|] eqn:Hc; [|done].
    intros [= <-]. exact (Hd k c Hc).
  - intros m cn lg'. rewrite load_data_ok by reflexivity.
    cbn [fst store]. f_equal. rewrite Hst.
    apply map_eq. intros k. rewrite !lookup_fmap. by destruct (d !! k).
Qed.

Lemma C8_save_then_load_round_trip_witness :
  let d : gmap string Z := {[ "a" := 3; "mouse_left" := 2 ]} in
  let fresh := (IT.setup_database (mkWorld (mkMetrics d None) ∅ None None [])).2 in
  let r := save_data "t1" fresh in
  r.1 = Return () ∧
  store r.2 = (λ c, mkRow c "t1") <$> d ∧
  column_ok (store r.2) ∧
  ∀ m cn lg', (load_data (mkWorld m (store r.2) cn None lg')).1 = Return d.
Proof.
  apply (C8_save_then_load_round_trip {[ "a" := 3; "mouse_left" := 2 ]} None [] "t1").
  compute_done.
Defined.

(** C8, the claim as stated fails for a counter beyond the column:
    [press_count] is a 32-bit INTEGER, and the count 2147483648, which
    the table holds one key press after 2147483647 was loaded, does not
    fit it.  The row the INSERT of [save_data] asks for is one the
    column cannot hold, so the engine refuses it, and whatever rows the
    table holds, [load_data] never returns this counter table. *)
Lemma C8_counterexample :
  let d : gmap string Z := {[ "a" := 2147483648 ]} in
  ¬ table_fits d ∧
  ¬ column_ok (insert_do_update "a" 2147483648 "t1" ∅) ∧
  ∀ w, column_ok (store w) → (load_data w).1 ≠ Return d.
Proof.
  intros d. split; [|split].
  - intros H. specialize (H "a" 2147483648 (lookup_singleton_eq _ _)).
    unfold fits_column in H. lia.
  - intros H. unfold insert_do_update in H.
    specialize (H "a" _ (lookup_insert_eq _ _ _)).
    unfold fits_column in H. simpl in H. lia.
  - intros w Hw. unfold load_data.
    rewrite bind_eq.
    destruct (decide (store_fault w = Some ConnectFails)) as [Hc|Hc];
      [by rewrite connect_ko|].
    rewrite connect_ok by done. rewrite bind_eq.
    destruct (decide (store_fault w = Some QueryFails)) as [Hq|Hq];
      [by rewrite query_ko|].
    rewrite query_ok by done. mrun. cbn [fst]. intros [= Heq].
    assert (Ha : (press_count <$> store w) !! "a" = Some 2147483648)
      by (rewrite Heq; apply lookup_singleton_eq).
    rewrite lookup_fmap in Ha.
    destruct (store w !! "a") as [x|] eqn:Hx; [|done].
    injection Ha as Ha. specialize (Hw "a" x Hx). unfold fits_column in Hw.
    simpl in Hw. lia.
Qed.

(** ** Start-up *)

Lemma elem_of_ALL_INPUTS_esc : "esc" ∈ ALL_INPUTS.
Proof. compute_done. Qed.

Lemma IT_main_startup_ok now m rows c lg :
  IT.main_startup now (mkWorld m rows c None lg) =
  (Return (),
   mkWorld (mkMetrics ((press_count <$> initialized now rows) ∪ all_zero) None)
     (initialized now rows) None None
     (lg ++ [Committed rows; Committed (initialized now rows)])).
Proof.
  unfold IT.main_startup, IT.setup_database. mrun.
  rewrite initialize_inputs_connected by done. mrun.
  rewrite load_data_ok by done. mrun.
  by rewrite <- app_assoc.
Qed.

Lemma MC_setup_ok now m rows c lg :
  MC.setup now (mkWorld m rows c None lg) =
  let m' := mkMetrics ((press_count <$> initialized now rows) ∪ all_zero) None in
  (Return (),
   mkWorld m' (initialized now rows) None None
     (lg ++ [Committed rows; Committed (initialized now rows);
             Print "Previous data:"; Print (Metrics_str m')])).
Proof.
  unfold MC.setup, MC.setup_database, MC.load_previous_data. mrun.
  rewrite initialize_inputs_connected by done. mrun.
  rewrite load_data_ok by done. mrun.
  by rewrite <- !app_assoc.
Qed.

(** ** The handlers *)

Lemma increment_ok k w c :
  input_counts (metrics w) !! k = Some c →
  increment k w =
  (Return (),
   set_metrics (mkMetrics (<[k := c + 1]> (input_counts (metrics w)))
                          (last_updated (metrics w))) w).
Proof. intros H. unfold increment. rewrite bind_eq, get_world_eq. by rewrite H. Qed.

Lemma increment_ko k w :
  input_counts (metrics w) !! k = None →
  increment k w = (Raised (KeyError k), w).
Proof. intros H. unfold increment. rewrite bind_eq, get_world_eq. by rewrite H. Qed.

Lemma is_esc_true k : is_esc k = true → k = Key "esc".
Proof.
  destruct k as [c|name]; simpl; [done|].
  intros H. apply bool_decide_eq_true in H. by subst.
Qed.

Lemma key_str_esc : key_str (Key "esc") = PyStr "esc".
Proof. reflexivity. Qed.

Lemma contains_PyStr d s : contains d (PyStr s) = bool_decide (is_Some (d !! s)).
Proof. reflexivity. Qed.

Lemma key_handler_known p now k w id c :
  key_str k = PyStr id →
  input_counts (metrics w) !! id = Some c →
  is_esc k = false →
  key_handler p now k w =
  (Return (),
   set_metrics (mkMetrics (<[id := c + 1]> (input_counts (metrics w)))
                          (last_updated (metrics w))) w).
Proof.
  intros Hk Hc Hesc.
  destruct p; unfold key_handler, IT.on_press, MC._on_key_press;
    rewrite Hk, Hesc; mrun; rewrite contains_PyStr, Hc;
    rewrite bool_decide_eq_true_2 by eauto;
    rewrite (increment_ok _ _ c) by done; mrun; reflexivity.
Qed.

Lemma key_handler_unknown p now k w :
  contains (input_counts (metrics w)) (key_str k) = false →
  is_esc k = false →
  key_handler p now k w =
  (Return (),
   match p with
   | InputTracker => emit (Print ("Unknown key: " +:+ py_format (key_str k))) w
   | MetricCollector => w
   end).
Proof.
  intros Hk Hesc.
  destruct p; unfold key_handler, IT.on_press, MC._on_key_press;
    rewrite Hesc; mrun; rewrite Hk; mrun; reflexivity.
Qed.

(** The stop key, whatever the table and the store. *)
Lemma key_handler_stop p now w :
  key_handler p now (Key "esc") w =
  let d := input_counts (metrics w) in
  let m1 := mkMetrics (bump d "esc") (last_updated (metrics w)) in
  let w0 :=
    match d !! "esc", p with
    | None, InputTracker => emit (Print "Unknown key: esc") w
    | _, _ => w
    end in
  let w1 := emit (session_summary m1)
              (emit (Print "Stopping program...") (set_metrics m1 w0)) in
  match save_data_result now w1 with
  | (Return _, w2) => (Exited 0, emit (ExitProcess 0) w2)
  | (Raised e, w2) => (Raised e, w2)
  | (Exited n, w2) => (Exited n, w2)
  end.
Proof.
  unfold bump, session_summary. destruct w as [[d lu] st cn fl lg].
  destruct p; unfold key_handler, IT.on_press, MC._on_key_press, MC.save_metrics;
    rewrite key_str_esc; change (is_esc (Key "esc")) with true; cbv iota;
    mrun; rewrite contains_PyStr;
    destruct (d !! "esc") as [c|] eqn:Hc.
  all: try rewrite bool_decide_eq_true_2 by eauto.
  all: try rewrite bool_decide_eq_false_2 by (intros [? ?]; done).
  all: try rewrite (increment_ok _ _ c) by done.
  all: mrun; rewrite save_data_spec; wsimpl.
  all: destruct (save_data_result now _) as [[?|?|?] ?]; mrun; try reflexivity.
Qed.

(** ** The process after start-up *)

Lemma boot_ok p now rows :
  ∃ lg,
    boot p now rows None =
    mkSystem
      (mkWorld (mkMetrics ((press_count <$> initialized now rows) ∪ all_zero) None)
         (initialized now rows) None None lg)
      Sleeping true true None.
Proof.
  unfold boot, startup. destruct p.
  - rewrite IT_main_startup_ok. eexists. reflexivity.
  - rewrite MC_setup_ok. eexists. reflexivity.
Qed.

Lemma all_zero_lookup id :
  all_zero !! id = if decide (id ∈ ALL_INPUTS) then Some 0 else None.
Proof.
  unfold all_zero. rewrite lookup_gset_to_gmap.
  destruct (decide (id ∈ ALL_INPUTS)) as [H|H].
  - by rewrite option_guard_True.
  - by rewrite option_guard_False.
Qed.

Lemma boot_table_lookup p now rows id :
  table (boot p now rows None) !! id =
  match rows !! id with
  | Some r => Some (press_count r)
  | None => if decide (id ∈ ALL_INPUTS) then Some 0 else None
  end.
Proof.
  destruct (boot_ok p now rows) as [lg ->]. unfold table; simpl.
  rewrite lookup_union, lookup_fmap, initialized_lookup, all_zero_lookup.
  destruct (rows !! id) as [r|]; simpl.
  - by destruct (decide (id ∈ ALL_INPUTS)).
  - by destruct (decide (id ∈ ALL_INPUTS)).
Qed.

(** C2 (as the code has it): start-up succeeds on every store without a
    fault, and its merge takes over every loaded identifier, in the
    Vocabulary or not: an identifier with a persisted row has its
    persisted count, a Vocabulary identifier without one has 0, and the
    table holds the Vocabulary together with every persisted
    identifier. *)
Theorem C2_startup_merge_takes_every_row p now (rows : gmap string Row) :
  let s := boot p now rows None in
  exit_code s = None ∧
  (∀ id, table s !! id =
         match rows !! id with
         | Some r => Some (press_count r)
         | None => if decide (id ∈ ALL_INPUTS) then Some 0 else None
         end) ∧
  dom (table s) = ALL_INPUTS ∪ dom rows.
Proof.
  intros s. subst s. split; [|split].
  - by destruct (boot_ok p now rows) as [lg ->].
  - intros id. apply boot_table_lookup.
  - apply set_eq. intros id.
    rewrite elem_of_dom, boot_table_lookup, elem_of_union, elem_of_dom.
    destruct (rows !! id) as [r|].
    { split; intros _; [right|]; by eexists. }
    destruct (decide (id ∈ ALL_INPUTS)) as [Hin|Hin].
    + split; intros _; [by left | by eexists].
    + split; [by intros [? ?] | by intros [?|[? ?]]].
Qed.

(** C2, the claim as stated fails: a persisted row of an identifier that
    is not in the Vocabulary is merged into the counter table. *)
Lemma C2_counterexample :
  let s := boot InputTracker "t0" {[ "f13" := mkRow 7 "t" ]} None in
  ("f13" ∉ ALL_INPUTS) ∧ table s !! "f13" = Some 7.
Proof. cbv zeta. compute_done. Qed.

(** ** Event ingestion *)

Lemma step_key_running p now k s :
  exit_code s = None → keyboard_alive s = true →
  step p (KeyPress now k) s = after_key s (key_handler p now k (world s)).
Proof. intros He Hk. unfold step. by rewrite He, Hk. Qed.

Lemma step_exited p e s : exit_code s ≠ None → step p e s = s.
Proof. intros H. unfold step. by destruct (exit_code s). Qed.

Lemma run_exited p evs s : exit_code s ≠ None → run p evs s = s.
Proof.
  intros H. unfold run. induction evs as [|e evs IH]; simpl; [done|].
  by rewrite step_exited.
Qed.

Lemma esc_in_table (d : gmap string Z) :
  ALL_INPUTS ⊆ dom d → is_Some (d !! "esc").
Proof. intros H. apply elem_of_dom, H, elem_of_ALL_INPUTS_esc. Qed.

(** C6 (as the code has it): a key press whose identifier is not in the
    counter table, which holds the Vocabulary and every identifier
    loaded at start-up, changes no counter and no durable count and
    leaves the process and both listeners running; [input-tracker.py]
    prints the diagnostic [Unknown key: <identifier>]. *)
Theorem C6_key_not_in_table p now k s :
  exit_code s = None → keyboard_alive s = true →
  ALL_INPUTS ⊆ dom (table s) →
  contains (table s) (key_str k) = false →
  let s' := step p (KeyPress now k) s in
  table s' = table s ∧ durable s' = durable s ∧
  exit_code s' = None ∧ keyboard_alive s' = true ∧
  mouse_alive s' = mouse_alive s ∧ saver s' = saver s ∧
  (p = InputTracker →
   log (world s') =
   log (world s) ++ [Print ("Unknown key: " +:+ py_format (key_str k))]).
Proof.
  intros He Hk Hdom Hun s'. subst s'.
  assert (Hesc : is_esc k = false).
  { destruct (is_esc k) eqn:E; [|done].
    apply is_esc_true in E. subst k. rewrite key_str_esc, contains_PyStr in Hun.
    apply bool_decide_eq_false in Hun. destruct Hun. by apply esc_in_table. }
  rewrite step_key_running by done.
  unfold table in Hun. rewrite key_handler_unknown by done.
  unfold after_key, table, durable; simpl.
  destruct p; simpl; repeat split; try done.
Qed.

Lemma C6_key_not_in_table_witness :
  let s := boot InputTracker "t0" ∅ None in
  let s' := step InputTracker (KeyPress "t1" (Key "f13")) s in
  table s' = table s ∧ durable s' = durable s ∧
  exit_code s' = None ∧ keyboard_alive s' = true ∧
  mouse_alive s' = mouse_alive s ∧ saver s' = saver s ∧
  (InputTracker = InputTracker →
   log (world s') = log (world s) ++ [Print "Unknown key: f13"]).
Proof.
  apply (C6_key_not_in_table InputTracker "t1" (Key "f13")
           (boot InputTracker "t0" ∅ None)).
  - compute_done.
  - compute_done.
  - compute_done.
  - compute_done.
Defined.


(** C6, the claim as stated fails: an identifier outside the Vocabulary
    that start-up loaded from the store is counted like any other, and
    nothing is printed. *)
Lemma C6_counterexample :
  let s := boot InputTracker "t0" {[ "f13" := mkRow 7 "t" ]} None in
  let s' := step InputTracker (KeyPress "t1" (Key "f13")) s in
  key_str (Key "f13") = PyStr "f13" ∧ ("f13" ∉ ALL_INPUTS) ∧
  table s !! "f13" = Some 7 ∧ table s' !! "f13" = Some 8 ∧
  log (world s') = log (world s).
Proof.
  cbv zeta. compute_done.
Qed.

Lemma count_desc_transitive : Transitive count_desc.
Proof. intros x y z. unfold count_desc. lia. Qed.

Lemma count_desc_is_total : Total count_desc.
Proof. intros x y. unfold count_desc. lia. Qed.

Lemma report_lines_is_report rows : is_report rows (report_lines rows).
Proof.
  exists (report_rows rows). unfold report_lines, report_rows.
  split; [reflexivity|]. split.
  - apply merge_sort_Permutation.
  - apply Sorted_StronglySorted; [apply count_desc_transitive|].
    apply Sorted_merge_sort, count_desc_is_total.
Qed.

(** ** Shutdown *)

Lemma step_stop_key p now s :
  exit_code s = None → keyboard_alive s = true →
  store_fault (world s) = None →
  ∀ c, table s !! "esc" = Some c →
  let m1 := mkMetrics (<["esc" := c + 1]> (table s)) (last_updated (metrics (world s))) in
  let rows' := saved now (input_counts m1) (store (world s)) in
  step p (KeyPress now (Key "esc")) s =
  mkSystem
    (mkWorld (mkMetrics (input_counts m1) (Some now)) rows' None None
       (log (world s) ++
        [Print "Stopping program..."; session_summary m1; Committed rows'] ++
        report_lines rows' ++ [ExitProcess 0]))
    (saver s) (keyboard_alive s) (mouse_alive s) (Some 0).
Proof.
  intros He Hk Hf c Hc m1 rows'. subst m1 rows'.
  rewrite step_key_running by done. rewrite key_handler_stop.
  unfold table in *. destruct s as [[[d lu] st cn fl lg] sv ka ma ec].
  simpl in *. subst fl. unfold bump. rewrite Hc.
  unfold save_data_result; wsimpl. unfold after_key; simpl.
  unfold report_lines. do 2 f_equal. rewrite <- !app_assoc. reflexivity.
Qed.

(** C4 (as the code has it): on the stop key, with the store working
    and the saving thread outside [save_data] (asleep or dead) for as
    long as the handler runs, the handler counts the key, prints
    [Stopping program...], prints the session summary, and only then
    writes every counter with the current time stamp in one commit,
    prints the report of the rows (those with a positive count, by
    descending count) and ends the process with status 0; no later
    event changes anything. *)
Theorem C4_shutdown_prints_summary_then_persists p now s c evs :
  exit_code s = None → keyboard_alive s = true →
  in_save_data s = false →
  store_fault (world s) = None →
  table s !! "esc" = Some c →
  let s1 := step p (KeyPress now (Key "esc")) s in
  let m1 := mkMetrics (<["esc" := c + 1]> (table s))
                      (last_updated (metrics (world s))) in
  let rows' := saved now (input_counts m1) (store (world s)) in
  (∃ report, is_report rows' report ∧
     log (world s1) =
       log (world s) ++
       [Print "Stopping program..."; session_summary m1; Committed rows'] ++
       report ++ [ExitProcess 0]) ∧
  store (world s1) = rows' ∧
  (∀ id n, input_counts m1 !! id = Some n → rows' !! id = Some (mkRow n now)) ∧
  exit_code s1 = Some 0 ∧
  run p evs s1 = s1.
Proof.
  intros He Hk _ Hf Hc s1 m1 rows'. subst s1 m1 rows'.
  rewrite (step_stop_key p now s He Hk Hf c Hc). cbn [world log store exit_code].
  split; [|repeat split].
  - eexists. split; [apply report_lines_is_report|reflexivity].
  - intros id n Hn. rewrite saved_lookup. cbn [input_counts] in *. by rewrite Hn.
  - by apply run_exited.
Qed.

Lemma C4_shutdown_prints_summary_then_persists_witness :
  let s := boot InputTracker "t0" ∅ None in
  let evs := [KeyPress "t2" (KeyCode (Some "a"))] in
  let s1 := step InputTracker (KeyPress "t1" (Key "esc")) s in
  let m1 := mkMetrics (<["esc" := 0 + 1]> (table s))
                      (last_updated (metrics (world s))) in
  let rows' := saved "t1" (input_counts m1) (store (world s)) in
  (∃ report, is_report rows' report ∧
     log (world s1) =
       log (world s) ++
       [Print "Stopping program..."; session_summary m1; Committed rows'] ++
       report ++ [ExitProcess 0]) ∧
  store (world s1) = rows' ∧
  (∀ id n, input_counts m1 !! id = Some n → rows' !! id = Some (mkRow n "t1")) ∧
  exit_code s1 = Some 0 ∧
  run InputTracker evs s1 = s1.
Proof.
  apply (C4_shutdown_prints_summary_then_persists InputTracker "t1"
           (boot InputTracker "t0" ∅ None) 0
           [KeyPress "t2" (KeyCode (Some "a"))]); compute_done.
Defined.

(** C4, the claim as stated fails: in what the stop key adds to the log
    the session summary comes before the one commit, never after it. *)
Lemma C4_counterexample :
  let s := boot InputTracker "t0" ∅ None in
  let s1 := step InputTracker (KeyPress "t1" (Key "esc")) s in
  let added := drop (length (log (world s))) (log (world s1)) in
  let summary := session_summary (mkMetrics (<["esc" := 1]> (table s)) None) in
  added !! 1%nat = Some summary ∧
  added !! 2%nat = Some (Committed (store (world s1))) ∧
  ¬ ∃ i j rows, (i < j)%nat ∧
      added !! i = Some (Committed rows) ∧ added !! j = Some summary.
Proof.
  intros s s1 added summary.
  assert (H1 : added !! 1%nat = Some summary) by (subst added summary s1 s; compute_done).
  assert (H2 : added !! 2%nat = Some (Committed (store (world s1))))
    by (subst added summary s1 s; compute_done).
  assert (Hc : (λ e, match e with Committed _ => true | _ => false end) <$> added
               = [false; false; true; false; false; false])
    by (subst added summary s1 s; vm_compute; reflexivity).
  assert (Hs : (λ e, bool_decide (e = summary)) <$> added
               = [false; true; false; false; false; false])
    by (subst added summary s1 s; vm_compute; reflexivity).
  clearbody added summary s1.
  split; [done|]. split; [done|].
  intros (i & j & rows & Hlt & Hi & Hj).
  apply (f_equal (fmap (λ e, match e with Committed _ => true | _ => false end))) in Hi.
  apply (f_equal (fmap (λ e, bool_decide (e = summary)))) in Hj.
  rewrite <- list_lookup_fmap in Hi, Hj. rewrite Hc in Hi. rewrite Hs in Hj.
  cbn [fmap option_fmap option_map] in Hi, Hj.
  rewrite bool_decide_eq_true_2 in Hj by done.
  destruct i as [|[|[|[|[|[|i]]]]]]; simpl in Hi; try discriminate.
  destruct j as [|[|[|[|[|[|j]]]]]]; simpl in Hj; try discriminate; lia.
Qed.

(** C5 (as the code has it): the session summary is printed before the
    final flush is attempted, so it is reported whether or not the flush
    succeeds.  When the flush succeeds the process exits with status 0.
    When it fails the exception leaves the handler, [os._exit] is not
    reached, no exit status is produced and the keyboard listener
    stops. *)
Theorem C5_shutdown_flush_outcome p now s :
  exit_code s = None → keyboard_alive s = true →
  let s' := step p (KeyPress now (Key "esc")) s in
  let m1 := mkMetrics (bump (table s) "esc") (last_updated (metrics (world s))) in
  session_summary m1 ∈ log (world s') ∧
  match store_fault (world s) with
  | None =>
      (key_handler p now (Key "esc") (world s)).1 = Exited 0 ∧
      exit_code s' = Some 0
  | Some f =>
      (key_handler p now (Key "esc") (world s)).1 = Raised (OperationalError f) ∧
      exit_code s' = None ∧ keyboard_alive s' = false
  end.
Proof.
  intros He Hk s' m1. subst s' m1.
  rewrite step_key_running by done. rewrite key_handler_stop.
  unfold table. destruct s as [[[d lu] st cn fl lg] sv ka ma ec].
  cbv zeta. cbn [world metrics input_counts last_updated store_fault].
  set (e := session_summary _). clearbody e.
  unfold save_data_result.
  destruct (d !! "esc") as [c|], p, fl as [[]|];
    unfold after_key, emit, set_metrics, set_conn, set_store;
    cbn [fst snd world log exit_code keyboard_alive metrics store conn
         store_fault input_counts last_updated];
    (split; [rewrite ?elem_of_app, ?elem_of_cons; auto 10 | done]).
Qed.

Lemma C5_shutdown_flush_outcome_witness :
  let s := step InputTracker (SetFault (Some CommitFails))
             (boot InputTracker "t0" ∅ None) in
  let s' := step InputTracker (KeyPress "t1" (Key "esc")) s in
  let m1 := mkMetrics (bump (table s) "esc") (last_updated (metrics (world s))) in
  session_summary m1 ∈ log (world s') ∧
  match store_fault (world s) with
  | None =>
      (key_handler InputTracker "t1" (Key "esc") (world s)).1 = Exited 0 ∧
      exit_code s' = Some 0
  | Some f =>
      (key_handler InputTracker "t1" (Key "esc") (world s)).1
        = Raised (OperationalError f) ∧
      exit_code s' = None ∧ keyboard_alive s' = false
  end.
Proof.
  apply (C5_shutdown_flush_outcome InputTracker "t1"
           (step InputTracker (SetFault (Some CommitFails))
              (boot InputTracker "t0" ∅ None))); compute_done.
Defined.

(** C5, the claim as stated fails: with the store unreachable the stop
    key produces no exit status at all, in particular no non-zero one. *)
Lemma C5_counterexample :
  let s := step InputTracker (SetFault (Some ConnectFails))
             (boot InputTracker "t0" ∅ None) in
  let s' := step InputTracker (KeyPress "t1" (Key "esc")) s in
  (key_handler InputTracker "t1" (Key "esc") (world s)).1
    = Raised (OperationalError ConnectFails) ∧
  exit_code s' = None ∧
  ¬ ∃ n, n ≠ 0 ∧ exit_code s' = Some n.
Proof.
  intros s s'.
  assert (H : exit_code s' = None) by (subst s' s; compute_done).
  split; [subst s; compute_done|]. split; [done|].
  intros (n & _ & Hn). congruence.
Qed.


(** ** The scenario of three presses of [a], two left clicks and the
    stop key *)

(** C3 (as the code has it): from counters all 0 the summary reports
    left 2, right 0, middle 0 and 4 key presses, the stop key being
    counted itself; the flush that follows the summary persists
    [a] = 3, [esc] = 1, [mouse_left] = 2 and 0 for every other
    identifier, and the process then exits with status 0. *)
Theorem C3_scenario_summary_and_flush p :
  let s := run p scenario (boot p "t0" ∅ None) in
  total_key_presses (table s) = 4 ∧
  get0 (table s) "mouse_left" = 2 ∧
  get0 (table s) "mouse_right" = 0 ∧
  get0 (table s) "mouse_middle" = 0 ∧
  durable s = <["a" := 3]> (<["esc" := 1]> (<["mouse_left" := 2]> all_zero)) ∧
  (∃ i : nat,
     log (world s) !! i = Some (summary_line "2" "0" "0" "4") ∧
     log (world s) !! S i = Some (Committed (store (world s)))) ∧
  last (log (world s)) = Some (ExitProcess 0) ∧
  exit_code s = Some 0.
Proof.
  intros s.
  set (i := match p with InputTracker => 3%nat | MetricCollector => 5%nat end).
  assert (H :
    total_key_presses (table s) = 4 ∧
    get0 (table s) "mouse_left" = 2 ∧
    get0 (table s) "mouse_right" = 0 ∧
    get0 (table s) "mouse_middle" = 0 ∧
    durable s = <["a" := 3]> (<["esc" := 1]> (<["mouse_left" := 2]> all_zero)) ∧
    (log (world s) !! i = Some (summary_line "2" "0" "0" "4") ∧
     log (world s) !! S i = Some (Committed (store (world s)))) ∧
    last (log (world s)) = Some (ExitProcess 0) ∧
    exit_code s = Some 0).
  { subst s i. destruct p; compute_done. }
  destruct H as (H1 & H2 & H3 & H4 & H5 & H6 & H7 & H8).
  repeat (split; [assumption|]).
  split; [by exists i|]. by split.
Qed.

(** C3, the claim as stated fails: the summary does not report 3 key
    presses. *)
Lemma C3_counterexample :
  let s := run InputTracker scenario (boot InputTracker "t0" ∅ None) in
  total_key_presses (table s) = 4 ∧
  summary_line "2" "0" "0" "4" ∈ log (world s) ∧
  summary_line "2" "0" "0" "3" ∉ log (world s).
Proof. cbv zeta. compute_done. Qed.

(** ** What one step does to the counter table *)

Lemma flush_begin_spec now w :
  flush_begin now w =
  if decide (store_fault w = Some ConnectFails)
  then (Raised (OperationalError ConnectFails), w)
  else (Return (map_to_list (input_counts (metrics w))).*1,
        mkWorld (mkMetrics (input_counts (metrics w)) (Some now))
          (store w) (Some (store w)) (store_fault w) (log w)).
Proof.
  unfold flush_begin. destruct (decide (store_fault w = Some ConnectFails)) as [H|H].
  - rewrite bind_eq, connect_ko by done. reflexivity.
  - rewrite bind_eq, connect_ok by done. mrun. reflexivity.
Qed.

Lemma flush_row_spec k now w :
  flush_row k now w =
  (Return (),
   match input_counts (metrics w) !! k with
   | Some c => set_conn (insert_do_update k c now <$> conn w) w
   | None => w
   end).
Proof.
  unfold flush_row. rewrite bind_eq, get_world_eq.
  by destruct (input_counts (metrics w) !! k).
Qed.

Lemma print_current_counts_ok w :
  store_fault w ≠ Some QueryFails →
  _print_current_counts w =
  (Return (),
   mkWorld (metrics w) (store w) (conn w) (store_fault w)
     (log w ++ report_lines (default (store w) (conn w)))).
Proof.
  intros H. unfold _print_current_counts.
  rewrite bind_eq, query_ok by done. rewrite bind_eq, print_eq.
  rewrite for_each_print. unfold report_lines, emit; simpl.
  by rewrite <- app_assoc.
Qed.

Lemma flush_end_spec w :
  flush_end w =
  if decide (store_fault w = Some CommitFails)
  then (Raised (OperationalError CommitFails), w)
  else
    let w1 := match conn w with
              | Some rows => emit (Committed rows) (set_store rows w)
              | None => w
              end in
    if decide (store_fault w = Some QueryFails)
    then (Raised (OperationalError QueryFails), w1)
    else (Return (),
          mkWorld (metrics w) (store w1) None (store_fault w)
            (log w1 ++ report_lines (default (store w1) (conn w)))).
Proof.
  unfold flush_end.
  destruct (decide (store_fault w = Some CommitFails)) as [H|H].
  { rewrite bind_eq, commit_ko by done. reflexivity. }
  rewrite bind_eq, commit_ok by done. cbv zeta.
  destruct (decide (store_fault w = Some QueryFails)) as [Hq|Hq].
  - unfold _print_current_counts.
    rewrite bind_eq, bind_eq, query_ko; [reflexivity|].
    destruct (conn w); simpl; done.
  - rewrite bind_eq, print_current_counts_ok by (destruct (conn w); simpl; done).
    rewrite disconnect_eq. destruct w as [m st [v|] fl lg]; reflexivity.
Qed.

Lemma on_click_table button pressed w :
  ∃ o : option string,
    input_counts (metrics (on_click button pressed w).2) =
    match o with
    | Some id => bump (input_counts (metrics w)) id
    | None => input_counts (metrics w)
    end.
Proof.
  unfold on_click. destruct pressed; [|by exists None].
  destruct button; try (by exists None).
  all: match goal with |- context [increment ?k] => exists (Some k) end.
  all: unfold bump;
    destruct (input_counts (metrics w) !! _) as [c|] eqn:Hc;
    [rewrite (increment_ok _ _ c) by done | rewrite increment_ko by done];
    reflexivity.
Qed.

Lemma bump_None (d : gmap string Z) id : d !! id = None → bump d id = d.
Proof. intros H. unfold bump. by rewrite H. Qed.

Lemma bump_Some (d : gmap string Z) id c :
  d !! id = Some c → bump d id = <[id := c + 1]> d.
Proof. intros H. unfold bump. by rewrite H. Qed.

Lemma key_handler_table p now k w :
  input_counts (metrics (key_handler p now k w).2) =
  match key_str k with
  | PyStr id => bump (input_counts (metrics w)) id
  | PyNone => input_counts (metrics w)
  end.
Proof.
  destruct (is_esc k) eqn:Hesc.
  - apply is_esc_true in Hesc. subst k. rewrite key_handler_stop, key_str_esc.
    cbv zeta. unfold save_data_result.
    destruct w as [[d lu] st cn fl lg]. cbn [metrics input_counts last_updated].
    destruct (d !! "esc"), p, fl as [[]|]; reflexivity.
  - destruct (key_str k) as [|id] eqn:Hk.
    + rewrite key_handler_unknown by (by rewrite ?Hk). by destruct p.
    + destruct (input_counts (metrics w) !! id) as [c|] eqn:Hc.
      * rewrite (key_handler_known p now k w id c) by done.
        by rewrite (bump_Some _ _ c).
      * rewrite key_handler_unknown; [|rewrite Hk, contains_PyStr|done].
        -- rewrite bump_None by done. by destruct p.
        -- apply bool_decide_eq_false. rewrite Hc. by intros [? ?].
Qed.

Lemma step_saver p e s :
  match e with KeyPress _ _ | Click _ _ => False | _ => True end →
  table (step p e s) = table s ∧
  exit_code (step p e s) = exit_code s ∧
  keyboard_alive (step p e s) = keyboard_alive s ∧
  mouse_alive (step p e s) = mouse_alive s.
Proof.
  intros He. unfold step, table.
  destruct (exit_code s) eqn:Hex; [by rewrite Hex|].
  destruct e as [| |now| | |f]; try done.
  - destruct (saver s); try (by rewrite Hex).
    rewrite flush_begin_spec. unfold after_flush.
    destruct (decide _); simpl; by rewrite Hex.
  - destruct (saver s) as [|[|k rest] ts|]; try (by rewrite Hex).
    rewrite flush_row_spec. unfold after_flush; simpl.
    rewrite Hex. by destruct (input_counts (metrics (world s)) !! k).
  - destruct (saver s) as [|[|k rest] ts|]; try (by rewrite Hex).
    rewrite flush_end_spec. unfold after_flush. cbv zeta.
    destruct (decide _); [simpl; by rewrite Hex|].
    destruct (decide _); simpl; rewrite Hex;
      by destruct (conn (world s)).
Qed.

Lemma step_table p e s :
  ∃ o : option string,
    table (step p e s) =
    match o with
    | Some id => bump (table s) id
    | None => table s
    end.
Proof.
  destruct e as [now k|button pressed| | | |].
  3-6: exists None; by apply step_saver.
  - unfold step, table. destruct (exit_code s); [by exists None|].
    destruct (keyboard_alive s); [|by exists None].
    pose proof (key_handler_table p now k (world s)) as H.
    exists (match key_str k with PyStr id => Some id | PyNone => None end).
    unfold after_key.
    destruct (key_handler p now k (world s)) as [[?|?|?] w']; simpl in *;
      rewrite H; by destruct (key_str k).
  - unfold step, table. destruct (exit_code s); [by exists None|].
    destruct (mouse_alive s); [|by exists None].
    destruct (on_click_table button pressed (world s)) as [o H].
    exists o. unfold after_click.
    by destruct (on_click button pressed (world s)) as [[?|?|?] w'].
Qed.

Lemma step_key_known p now k s id c :
  exit_code s = None → keyboard_alive s = true →
  key_str k = PyStr id → table s !! id = Some c → is_esc k = false →
  table (step p (KeyPress now k) s) = <[id := c + 1]> (table s) ∧
  exit_code (step p (KeyPress now k) s) = None ∧
  keyboard_alive (step p (KeyPress now k) s) = true.
Proof.
  intros He Hk Hs Hc Hesc. rewrite step_key_running by done.
  unfold table in *. rewrite (key_handler_known p now k _ id c) by done.
  unfold after_key; simpl. by rewrite He, Hk.
Qed.

Lemma step_key_stop p now s c :
  exit_code s = None → keyboard_alive s = true →
  table s !! "esc" = Some c →
  table (step p (KeyPress now (Key "esc")) s) = <["esc" := c + 1]> (table s) ∧
  (exit_code (step p (KeyPress now (Key "esc")) s) ≠ None ∨
   keyboard_alive (step p (KeyPress now (Key "esc")) s) = false).
Proof.
  intros He Hk Hc. rewrite step_key_running by done.
  pose proof (key_handler_table p now (Key "esc") (world s)) as Ht.
  rewrite key_str_esc in Ht. unfold table in *.
  rewrite (bump_Some _ _ c) in Ht by done.
  assert (Ho : ∀ a, (key_handler p now (Key "esc") (world s)).1 ≠ Return a).
  { intros a. rewrite key_handler_stop. cbv zeta.
    by destruct (save_data_result now _) as [[?|?|?] ?]. }
  unfold after_key.
  destruct (key_handler p now (Key "esc") (world s)) as [[a|e|n] w'];
    simpl in *; (split; [done|]).
  - by destruct (Ho a).
  - by right.
  - by left.
Qed.

(** Once the process has exited or the keyboard listener has stopped,
    no key press and no step of the saving thread changes a counter. *)
Lemma run_keyboard_stopped p id evs s :
  exit_code s ≠ None ∨ keyboard_alive s = false →
  Forall (press_of id) evs →
  table (run p evs s) = table s.
Proof.
  intros Hst Hevs. revert s Hst.
  induction Hevs as [|e evs He _ IH]; intros s Hst; [done|].
  change (run p (e :: evs) s) with (run p evs (step p e s)).
  destruct e as [now k|button pressed| | | |]; try done.
  2-5: match goal with
       | |- context [step _ ?e _] =>
           destruct (step_saver p e s I) as (Ht & Hx & Hk & _)
       end;
       rewrite IH by (by rewrite Hx, Hk); done.
  assert (Hs : step p (KeyPress now k) s = s).
  { unfold step. destruct (exit_code s); [done|].
    destruct Hst as [?|Hf]; [done | by rewrite Hf]. }
  rewrite Hs. by apply IH.
Qed.

(** ** Counting key presses *)

(** C1 (as the code has it): starting from count [c] for an identifier
    of the counter table, after any sequence of key presses that all
    resolve to it, with steps of the saving thread and of the store in
    between, the count is [c] plus the number of presses handled: every
    press when none is the stop key, and otherwise the presses up to and
    including the first stop key, which is counted itself and ends the
    handling of key presses. *)
Theorem C1_presses_are_counted_once p s id c evs :
  exit_code s = None → keyboard_alive s = true →
  table s !! id = Some c →
  Forall (press_of id) evs →
  table (run p evs s) !! id = Some (c + Z.of_nat (handled_presses evs)) ∧
  (Forall not_stop_key evs → handled_presses evs = presses evs).
Proof.
  intros He Hk Hc Hevs. split.
  - revert s c He Hk Hc.
    induction Hevs as [|e evs Hpe Hevs IH]; intros s c He Hk Hc.
    { simpl. rewrite Hc. f_equal; lia. }
    change (run p (e :: evs) s) with (run p evs (step p e s)).
    destruct e as [now k|button pressed| | | |]; try done.
    2-5: match goal with
         | |- context [step _ ?e _] =>
             destruct (step_saver p e s I) as (Ht & Hx & Hka & _)
         end;
         apply IH; rewrite ?Hx, ?Hka, ?Ht; done.
    simpl in Hpe. cbn [handled_presses].
    destruct (is_esc k) eqn:Hesc.
    + apply is_esc_true in Hesc. subst k. rewrite key_str_esc in Hpe.
      injection Hpe as <-.
      destruct (step_key_stop p now s c He Hk Hc) as [Ht Hst].
      rewrite (run_keyboard_stopped p "esc") by done.
      rewrite Ht, lookup_insert_eq. f_equal; lia.
    + destruct (step_key_known p now k s id c He Hk Hpe Hc Hesc)
        as (Ht & Hx & Hka).
      assert (Hc' : table (step p (KeyPress now k) s) !! id = Some (c + 1))
        by (by rewrite Ht, lookup_insert_eq).
      rewrite (IH _ (c + 1) Hx Hka Hc'). f_equal; lia.
  - clear. induction 1 as [|e evs He _ IH]; [done|].
    destruct e; simpl in *; rewrite ?He; congruence.
Qed.

Lemma C1_presses_are_counted_once_witness :
  let s := boot InputTracker "t0" ∅ None in
  let evs := [KeyPress "t1" (KeyCode (Some "a")); FlushBegin "t2";
              KeyPress "t3" (KeyCode (Some "a")); FlushRow;
              KeyPress "t4" (KeyCode (Some "a"))] in
  table (run InputTracker evs s) !! "a" = Some (0 + Z.of_nat (handled_presses evs)) ∧
  (Forall not_stop_key evs → handled_presses evs = presses evs).
Proof.
  apply (C1_presses_are_counted_once InputTracker (boot InputTracker "t0" ∅ None) "a" 0).
  - compute_done.
  - compute_done.
  - compute_done.
  - repeat constructor.
Defined.

(** C1, the claim as stated fails for the stop key: of two presses of
    [esc], both resolving to the Vocabulary identifier [esc], only the
    first is counted. *)
Lemma C1_counterexample :
  let s := boot InputTracker "t0" ∅ None in
  let evs := [KeyPress "t1" (Key "esc"); KeyPress "t2" (Key "esc")] in
  ("esc" ∈ ALL_INPUTS) ∧ table s !! "esc" = Some 0 ∧
  key_str (Key "esc") = PyStr "esc" ∧
  table (run InputTracker evs s) !! "esc" = Some 1 ∧
  table (run InputTracker evs s) !! "esc" ≠ Some (Z.of_nat (length evs)).
Proof. cbv zeta. compute_done. Qed.

(** ** Durable counts never decrease *)

Lemma rows_le_refl r : rows_le r r.
Proof. intros id x Hx. exists x. split; [done|lia]. Qed.

Lemma rows_le_trans r1 r2 r3 : rows_le r1 r2 → rows_le r2 r3 → rows_le r1 r3.
Proof.
  intros H12 H23 id x Hx.
  destruct (H12 id x Hx) as (y & Hy & Hxy).
  destruct (H23 id y Hy) as (z & Hz & Hyz).
  exists z. split; [done|lia].
Qed.

Lemma below_table_bump r d id : below_table r d → below_table r (bump d id).
Proof.
  intros H k x Hx. destruct (H k x Hx) as (c & Hc & Hle).
  unfold bump. destruct (d !! id) as [c'|] eqn:Hid; [|by exists c].
  destruct (decide (id = k)) as [->|Hne].
  - rewrite lookup_insert_eq. exists (c' + 1). split; [done|].
    rewrite Hid in Hc. injection Hc as ->. lia.
  - rewrite lookup_insert_ne by done. by exists c.
Qed.

Lemma saved_above now d st :
  below_table st d → rows_le st (saved now d st) ∧ below_table (saved now d st) d.
Proof.
  intros H. split.
  - intros id x Hx. rewrite saved_lookup.
    destruct (H id x Hx) as (c & Hc & Hle). rewrite Hc.
    by exists (mkRow c now).
  - intros id x. rewrite saved_lookup.
    destruct (d !! id) as [c|] eqn:Hc.
    + intros [= <-]. exists c. simpl. split; [done|lia].
    + intros Hx. destruct (H id x Hx) as (c & Hc' & _). congruence.
Qed.

Lemma consistent_ext w w' :
  store w' = store w → conn w' = conn w →
  input_counts (metrics w') = input_counts (metrics w) →
  consistent w → consistent w'.
Proof. unfold consistent. by intros -> -> ->. Qed.

Lemma consistent_bump w w' id :
  store w' = store w → conn w' = conn w →
  input_counts (metrics w') = bump (input_counts (metrics w)) id →
  consistent w → consistent w'.
Proof.
  unfold consistent. intros -> -> -> [H1 H2]. split.
  - by apply below_table_bump.
  - destruct (conn w); [|done]. destruct H2. split; [done|].
    by apply below_table_bump.
Qed.

Lemma save_data_consistent now w :
  consistent w →
  consistent (save_data_result now w).2 ∧
  rows_le (store w) (store (save_data_result now w).2).
Proof.
  intros Hw. pose proof Hw as [H1 _].
  destruct (saved_above now _ _ H1) as [Hle Hbelow].
  unfold save_data_result, consistent.
  destruct (store_fault w) as [[]|]; simpl.
  - split; [done|apply rows_le_refl].
  - split; [|apply rows_le_refl]. by repeat split.
  - split; [|done]. repeat split; try done. apply rows_le_refl.
  - by repeat split.
Qed.

Lemma key_handler_consistent p now k w :
  consistent w →
  consistent (key_handler p now k w).2 ∧
  rows_le (store w) (store (key_handler p now k w).2).
Proof.
  intros Hw. destruct (is_esc k) eqn:Hesc.
  - apply is_esc_true in Hesc. subst k. rewrite key_handler_stop. cbv zeta.
    match goal with
    | |- context [save_data_result now ?w1] =>
        assert (H1 : consistent w1);
        [|destruct (save_data_consistent now w1 H1) as [Hc Hle];
          assert (Hst : store w1 = store w)
            by (destruct (input_counts (metrics w) !! "esc"), p; reflexivity);
          rewrite Hst in Hle;
          destruct (save_data_result now w1) as [[?|?|?] w2]; simpl in *;
          (split; [|done]); try done;
          by apply (consistent_ext w2)]
    end.
    apply (consistent_bump w _ "esc"); try done;
      by destruct (input_counts (metrics w) !! "esc"), p.
  - destruct (key_str k) as [|id] eqn:Hk.
    + rewrite key_handler_unknown by (by rewrite ?Hk).
      split; [|destruct p; apply rows_le_refl].
      apply (consistent_ext w); try done; by destruct p.
    + destruct (input_counts (metrics w) !! id) as [c|] eqn:Hc.
      * rewrite (key_handler_known p now k w id c) by done. simpl.
        split; [|apply rows_le_refl].
        apply (consistent_bump w _ id); try done. simpl.
        by rewrite (bump_Some _ _ c).
      * rewrite key_handler_unknown; [|rewrite Hk, contains_PyStr|done].
        -- split; [|destruct p; apply rows_le_refl].
           apply (consistent_ext w); try done; by destruct p.
        -- apply bool_decide_eq_false. rewrite Hc. by intros [? ?].
Qed.

Lemma on_click_consistent button pressed w :
  consistent w →
  consistent (on_click button pressed w).2 ∧
  rows_le (store w) (store (on_click button pressed w).2).
Proof.
  intros Hw.
  assert (Hgen : ∀ k, consistent (increment k w).2 ∧
                      rows_le (store w) (store (increment k w).2)).
  { intros k. destruct (input_counts (metrics w) !! k) as [c|] eqn:Hc.
    - rewrite (increment_ok _ _ c) by done. simpl.
      split; [|apply rows_le_refl].
      apply (consistent_bump w _ k); try done. simpl.
      by rewrite (bump_Some _ _ c).
    - rewrite increment_ko by done. split; [done|apply rows_le_refl]. }
  unfold on_click.
  destruct pressed, button; try apply Hgen; (split; [done|apply rows_le_refl]).
Qed.

Lemma flush_begin_consistent now w :
  consistent w →
  consistent (flush_begin now w).2 ∧
  rows_le (store w) (store (flush_begin now w).2).
Proof.
  intros Hw. rewrite flush_begin_spec.
  destruct (decide _); simpl; (split; [|apply rows_le_refl]); [done|].
  destruct Hw as [H1 _]. split; [done|]. simpl. split; [apply rows_le_refl|done].
Qed.

Lemma flush_row_consistent k now w :
  consistent w →
  consistent (flush_row k now w).2 ∧
  rows_le (store w) (store (flush_row k now w).2).
Proof.
  intros Hw. rewrite flush_row_spec. simpl.
  destruct (input_counts (metrics w) !! k) as [c|] eqn:Hc;
    (split; [|apply rows_le_refl]); [|done].
  destruct Hw as [H1 H2]. split; [done|]. simpl.
  destruct (conn w) as [v|]; [|done]. simpl. destruct H2 as [Hle Hb].
  unfold insert_do_update. split.
  - intros id x Hx. destruct (decide (k = id)) as [->|Hne].
    + rewrite lookup_insert_eq. exists (mkRow c now). split; [done|]. simpl.
      destruct (H1 id x Hx) as (c' & Hc' & ?). rewrite Hc in Hc'.
      injection Hc' as ->. lia.
    + rewrite lookup_insert_ne by done. by apply Hle.
  - intros id x. destruct (decide (k = id)) as [->|Hne].
    + rewrite lookup_insert_eq. intros [= <-]. exists c. simpl. split; [done|lia].
    + rewrite lookup_insert_ne by done. by apply Hb.
Qed.

Lemma flush_end_consistent w :
  consistent w →
  consistent (flush_end w).2 ∧ rows_le (store w) (store (flush_end w).2).
Proof.
  intros [H1 H2]. rewrite flush_end_spec. cbv zeta.
  destruct (decide _); [simpl; by split; [|apply rows_le_refl]|].
  destruct (conn w) as [v|] eqn:Hv.
  - destruct H2 as [Hle Hb].
    destruct (decide _); simpl; (split; [|done]); unfold consistent; simpl;
      rewrite ?Hv; repeat split; try done; apply rows_le_refl.
  - destruct (decide _); simpl; (split; [|apply rows_le_refl]);
      unfold consistent; simpl; rewrite ?Hv; by split.
Qed.

Lemma step_consistent p e s :
  consistent (world s) →
  consistent (world (step p e s)) ∧
  rows_le (store (world s)) (store (world (step p e s))).
Proof.
  intros Hs. unfold step.
  destruct (exit_code s); [split; [done|apply rows_le_refl]|].
  destruct e as [now k|button pressed|now| | |f].
  - destruct (keyboard_alive s); [|split; [done|apply rows_le_refl]].
    destruct (key_handler_consistent p now k (world s) Hs) as [H1 H2].
    unfold after_key.
    by destruct (key_handler p now k (world s)) as [[?|?|?] w'].
  - destruct (mouse_alive s); [|split; [done|apply rows_le_refl]].
    destruct (on_click_consistent button pressed (world s) Hs) as [H1 H2].
    unfold after_click.
    by destruct (on_click button pressed (world s)) as [[?|?|?] w'].
  - destruct (saver s); try (split; [done|apply rows_le_refl]).
    destruct (flush_begin_consistent now (world s) Hs) as [H1 H2].
    unfold after_flush.
    by destruct (flush_begin now (world s)) as [[?|?|?] w'].
  - destruct (saver s) as [|[|k rest] ts|]; try (split; [done|apply rows_le_refl]).
    destruct (flush_row_consistent k ts (world s) Hs) as [H1 H2].
    unfold after_flush.
    by destruct (flush_row k ts (world s)) as [[?|?|?] w'].
  - destruct (saver s) as [|[|k rest] ts|]; try (split; [done|apply rows_le_refl]).
    destruct (flush_end_consistent (world s) Hs) as [H1 H2].
    unfold after_flush.
    by destruct (flush_end (world s)) as [[?|?|?] w'].
  - split; [|apply rows_le_refl]. by apply (consistent_ext (world s)).
Qed.

Lemma run_consistent p evs s :
  consistent (world s) →
  consistent (world (run p evs s)) ∧
  rows_le (store (world s)) (store (world (run p evs s))).
Proof.
  revert s. induction evs as [|e evs IH]; intros s Hs.
  { split; [done|apply rows_le_refl]. }
  change (run p (e :: evs) s) with (run p evs (step p e s)).
  destruct (step_consistent p e s Hs) as [H1 H2].
  destruct (IH _ H1) as [H3 H4].
  split; [done|]. by eapply rows_le_trans.
Qed.

Lemma boot_consistent p now rows :
  consistent (world (boot p now rows None)) ∧
  rows_le rows (store (world (boot p now rows None))).
Proof.
  destruct (boot_ok p now rows) as [lg ->]. unfold consistent; simpl.
  split; [split; [|done]|].
  - intros id x Hx. exists (press_count x). split; [|lia].
    rewrite lookup_union, lookup_fmap, Hx. simpl.
    by destruct (all_zero !! id).
  - intros id x Hx. exists x. split; [|lia].
    by rewrite initialized_lookup, Hx.
Qed.

(** C10: in a session, whatever the events, the faults of the store and
    the interleaving of the saving thread's steps, the durable count of
    an identifier never decreases: not from what was persisted before
    start-up to any later moment, and not from any moment of the session
    to a later one. *)
Theorem C10_durable_counts_never_decrease p now (rows : gmap string Row) evs1 evs2 :
  let s1 := run p evs1 (boot p now rows None) in
  let s2 := run p evs2 s1 in
  rows_le rows (store (world s1)) ∧
  rows_le (store (world s1)) (store (world s2)).
Proof.
  intros s1 s2. subst s1 s2.
  destruct (boot_consistent p now rows) as [H0 Hb].
  destruct (run_consistent p evs1 _ H0) as [H1 Hle1].
  destruct (run_consistent p evs2 _ H1) as [_ Hle2].
  split; [by eapply rows_le_trans | done].
Qed.

(** ** A flush reads the live table *)

Lemma window_begin p now s :
  exit_code s = None → saver s = Sleeping → store_fault (world s) = None →
  flush_window (table s) now (step p (FlushBegin now) s) ∧
  exit_code (step p (FlushBegin now) s) = None.
Proof.
  intros He Hs Hf. unfold step. rewrite He, Hs, flush_begin_spec, Hf.
  rewrite decide_False by done. unfold after_flush, flush_window, table; simpl.
  split; [|done]. split; [done|]. split.
  - intros id c0 Hc. exists c0. split; [done|lia].
  - exists [], (map_to_list (input_counts (metrics (world s)))).*1, (store (world s)).
    repeat split; try done. intros id Hid. by apply elem_of_nil in Hid.
Qed.

(** The window survives any growth of the table that leaves the saving
    thread, its connection and the store's health alone. *)
Lemma window_table_grows d0 now s s' :
  flush_window d0 now s →
  saver s' = saver s → conn (world s') = conn (world s) →
  store_fault (world s') = store_fault (world s) →
  (∀ id c, table s !! id = Some c → ∃ c', table s' !! id = Some c' ∧ c ≤ c') →
  flush_window d0 now s'.
Proof.
  intros (Hf & Hmono & written & pending & v & Hsv & Hkeys & Hconn & Hw)
    Hs Hc Hfl Hgrow.
  split; [congruence|]. split.
  - intros id c0 H0. destruct (Hmono id c0 H0) as (c2 & H2 & ?).
    destruct (Hgrow id c2 H2) as (c' & Hc' & ?). exists c'. split; [done|lia].
  - exists written, pending, v. repeat split; try congruence.
    intros id Hid. destruct (Hw id Hid) as (c & c0 & c2 & Hv & H0 & H2 & ?).
    destruct (Hgrow id c2 H2) as (c' & Hc' & ?).
    exists c, c0, c'. repeat split; try done; lia.
Qed.

Lemma bump_grows (d : gmap string Z) k id c :
  d !! id = Some c → ∃ c', bump d k !! id = Some c' ∧ c ≤ c'.
Proof.
  intros Hc. unfold bump. destruct (d !! k) as [ck|] eqn:Hk.
  - destruct (decide (k = id)) as [->|Hne].
    + rewrite lookup_insert_eq. exists (ck + 1). split; [done|].
      rewrite Hk in Hc. injection Hc as ->. lia.
    + rewrite lookup_insert_ne by done. exists c. split; [done|lia].
  - exists c. split; [done|lia].
Qed.

Lemma window_step p d0 now e s :
  flush_window d0 now s → during_flush e →
  exit_code (step p e s) ≠ None ∨ flush_window d0 now (step p e s).
Proof.
  intros Hw He. pose proof Hw as (Hf & Hmono & written & pending & v & Hsv & Hkeys & Hconn & Hwr).
  unfold step. destruct (exit_code s) eqn:Hex; [left; by rewrite Hex|].
  destruct e as [t k|button pressed| | | |]; try done.
  - destruct (keyboard_alive s); [|by right].
    destruct (is_esc k) eqn:Hesc.
    + left. apply is_esc_true in Hesc. subst k. rewrite key_handler_stop. cbv zeta.
      unfold save_data_result, after_key.
      destruct (world s) as [[d lu] st cn fl lg]. simpl in Hf. subst fl.
      cbn [metrics input_counts last_updated].
      destruct (d !! "esc"), p; simpl; done.
    + right. destruct (key_str k) as [|id] eqn:Hk.
      * rewrite key_handler_unknown by (by rewrite ?Hk). unfold after_key; simpl.
        apply (window_table_grows d0 now s); try done; try (by destruct p).
        intros i c Hc. exists c. split; [|lia]. unfold table in *; by destruct p.
      * destruct (table s !! id) as [c|] eqn:Hc.
        -- unfold table in Hc.
           rewrite (key_handler_known p t k _ id c) by done.
           unfold after_key; simpl.
           apply (window_table_grows d0 now s); try done.
           intros i ci Hi. unfold table in *; simpl.
           rewrite <- (bump_Some _ _ c) by done. by apply bump_grows.
        -- unfold table in Hc.
           rewrite key_handler_unknown; [|rewrite Hk, contains_PyStr|done].
           ++ unfold after_key; simpl.
              apply (window_table_grows d0 now s); try done; try (by destruct p).
              intros i c Hi. exists c. split; [|lia]. unfold table in *; by destruct p.
           ++ apply bool_decide_eq_false. rewrite Hc. by intros [? ?].
  - right. destruct (mouse_alive s); [|done].
    assert (Hgen : ∀ k, flush_window d0 now (after_click s (increment k (world s)))).
    { intros k. destruct (input_counts (metrics (world s)) !! k) as [c|] eqn:Hc.
      - rewrite (increment_ok _ _ c) by done. unfold after_click; simpl.
        apply (window_table_grows d0 now s); try done.
        intros i ci Hi. unfold table in *; simpl.
        rewrite <- (bump_Some _ _ c) by done. by apply bump_grows.
      - rewrite increment_ko by done. unfold after_click; simpl.
        apply (window_table_grows d0 now s); try done.
        intros i c Hi. exists c. split; [done|lia]. }
    unfold on_click. destruct pressed, button; try apply Hgen.
    all: unfold after_click; simpl;
      apply (window_table_grows d0 now s); try done;
      intros i c Hi; exists c; (split; [done|lia]).
  - right. rewrite Hsv. destruct pending as [|k rest]; [done|].
    rewrite flush_row_spec. unfold after_flush; simpl.
    assert (Hin : k ∈ (map_to_list d0).*1) by (rewrite Hkeys; set_solver).
    apply list_elem_of_fmap in Hin as ([k' c0] & -> & Hin).
    apply elem_of_map_to_list in Hin. simpl.
    destruct (Hmono k' c0 Hin) as (c2 & H2 & Hle).
    unfold table in H2. rewrite H2, Hconn. simpl.
    split; [done|]. split; [done|].
    exists (written ++ [k']), rest, (insert_do_update k' c2 now v).
    repeat split; try done.
    { by rewrite Hkeys, <- app_assoc. }
    intros id Hid. unfold insert_do_update, table; simpl.
    destruct (decide (k' = id)) as [<-|Hne].
    + rewrite lookup_insert_eq. exists c2, c0, c2. repeat split; try done; lia.
    + rewrite lookup_insert_ne by done.
      apply elem_of_app in Hid as [Hid|Hid]; [by apply Hwr|].
      apply list_elem_of_singleton in Hid. congruence.
Qed.

Lemma window_run p d0 now evs s :
  flush_window d0 now s → Forall during_flush evs →
  exit_code (run p evs s) = None →
  flush_window d0 now (run p evs s).
Proof.
  intros Hw Hevs. revert s Hw.
  induction Hevs as [|e evs He _ IH]; intros s Hw Hex; [done|].
  change (run p (e :: evs) s) with (run p evs (step p e s)) in *.
  destruct (window_step p d0 now e s Hw He) as [Hx|Hw']; [|by apply IH].
  rewrite run_exited in Hex by done. done.
Qed.

(** C9 (as the code has it): [save_data] takes no lock and no copy; its
    loop reads the shared table row by row while the listeners go on
    counting.  When a flush that began at time [now] has written all its
    rows and commits, every identifier the table had when the flush
    began is persisted with the time stamp [now] and a count that lies
    between its counter at the beginning and its counter at the end of
    the flush. *)
Theorem C9_flush_persists_counts_of_its_window p now evs s :
  exit_code s = None → saver s = Sleeping → store_fault (world s) = None →
  Forall during_flush evs →
  let s1 := step p (FlushBegin now) s in
  let s2 := run p evs s1 in
  let s3 := step p FlushEnd s2 in
  exit_code s2 = None → saver s2 = Flushing [] now →
  ∀ id c0, table s !! id = Some c0 →
    ∃ c c2, store (world s3) !! id = Some (mkRow c now) ∧
            table s2 !! id = Some c2 ∧ c0 ≤ c ≤ c2.
Proof.
  intros He Hs Hf Hevs s1 s2 s3 Hex2 Hsv2 id c0 H0.
  destruct (window_begin p now s He Hs Hf) as [Hw1 _].
  pose proof (window_run p _ now evs _ Hw1 Hevs Hex2) as Hw2.
  fold s1 s2 in Hw2.
  destruct Hw2 as (Hf2 & Hmono & written & pending & v & Hsv & Hkeys & Hconn & Hwr).
  rewrite Hsv2 in Hsv. injection Hsv as <-. rewrite app_nil_r in Hkeys.
  assert (Hid : id ∈ written).
  { rewrite <- Hkeys. apply list_elem_of_fmap. exists (id, c0).
    split; [done|]. by apply elem_of_map_to_list. }
  destruct (Hwr id Hid) as (c & c0' & c2 & Hv & H0' & H2 & Hle).
  rewrite H0 in H0'. injection H0' as <-.
  exists c, c2. split; [|done].
  subst s3. unfold step. rewrite Hex2, Hsv2, flush_end_spec, Hf2.
  rewrite !decide_False by done. cbv zeta. rewrite Hconn.
  unfold after_flush; simpl. done.
Qed.

Lemma C9_flush_persists_counts_of_its_window_witness :
  let s := boot InputTracker "t0" ∅ None in
  let s1 := step InputTracker (FlushBegin "t1") s in
  let s2 := run InputTracker torn_middle s1 in
  let s3 := step InputTracker FlushEnd s2 in
  ∃ c c2, store (world s3) !! "?" = Some (mkRow c "t1") ∧
          table s2 !! "?" = Some c2 ∧ 0 ≤ c ≤ c2.
Proof.
  apply (C9_flush_persists_counts_of_its_window InputTracker "t1" torn_middle
           (boot InputTracker "t0" ∅ None)); compute_done.
Defined.

(** C9, the claim as stated fails: a flush overtaken by two key presses
    persists the count of [?] from before them and the count of [_] from
    after them, a combination the counter table never held. *)
Lemma C9_counterexample :
  let s := boot InputTracker "t0" ∅ None in
  let s3 := run InputTracker torn_schedule s in
  durable s3 !! "?" = Some 0 ∧ durable s3 !! "_" = Some 1 ∧
  table s3 !! "?" = Some 1 ∧ table s3 !! "_" = Some 1 ∧
  ∀ n, durable s3 ≠ table (run InputTracker (take n torn_schedule) s).
Proof.
  intros s s3.
  assert (H : durable s3 !! "?" = Some 0 ∧ durable s3 !! "_" = Some 1 ∧
              table s3 !! "?" = Some 1 ∧ table s3 !! "_" = Some 1 ∧
              length torn_schedule = 117%nat ∧
              Forall (λ n, durable s3 ≠ table (run InputTracker (take n torn_schedule) s))
                (seq 0 118)).
  { subst s s3. compute_done. }
  destruct H as (H1 & H2 & H3 & H4 & Hlen & Hall).
  repeat (split; [assumption|]).
  intros n. destruct (decide (n < 118)%nat) as [Hn|Hn].
  - rewrite Forall_forall in Hall. apply Hall. apply elem_of_seq. lia.
  - rewrite take_ge by lia.
    rewrite Forall_forall in Hall.
    rewrite <- (take_ge torn_schedule 117) by lia.
    apply Hall. apply elem_of_seq. lia.
Qed.

(** * Further properties of the code *)

(** ** Mouse events *)

(** X1: releases and clicks of other buttons are ignored: a schedule
    made of such events only leaves the whole system as it was. *)
Theorem X1_ignored_clicks_change_nothing p evs s :
  Forall ignored_click evs → run p evs s = s.
Proof.
  intros Hevs. revert s. induction Hevs as [|e evs He _ IH]; intros s; [done|].
  change (run p (e :: evs) s) with (run p evs (step p e s)).
  assert (Hs : step p e s = s); [|by rewrite Hs].
  destruct e as [|button pressed| | | |]; try done.
  unfold step. destruct (exit_code s); [done|]. destruct (mouse_alive s); [|done].
  destruct s as [w sv ka ma ec].
  destruct He as [-> | ->]; [by destruct button | by destruct pressed].
Qed.

Lemma X1_ignored_clicks_change_nothing_witness :
  run InputTracker [Click Button_left false; Click Button_other true]
      (boot InputTracker "t0" ∅ None)
  = boot InputTracker "t0" ∅ None.
Proof.
  apply (X1_ignored_clicks_change_nothing InputTracker
           [Click Button_left false; Click Button_other true]).
  constructor; [by left|]. constructor; [by right|]. constructor.
Defined.

(** X2: a press of the left, right or middle button whose counter is in
    the table adds exactly 1 to that counter and changes nothing else:
    no other counter, not [last_updated], not the store, the connection
    or the log. *)
Theorem X2_click_increments_its_counter button id w c :
  button_id button = Some id →
  input_counts (metrics w) !! id = Some c →
  on_click button true w =
  (Return (),
   mkWorld (mkMetrics (<[id := c + 1]> (input_counts (metrics w)))
                      (last_updated (metrics w)))
           (store w) (conn w) (store_fault w) (log w)).
Proof.
  intros Hb Hc. destruct button; simpl in Hb; try done;
    injection Hb as <-; simpl; by rewrite (increment_ok _ _ c).
Qed.

Lemma X2_click_increments_its_counter_witness :
  let w := world (boot InputTracker "t0" ∅ None) in
  on_click Button_left true w =
  (Return (),
   mkWorld (mkMetrics (<["mouse_left" := 0 + 1]> (input_counts (metrics w)))
                      (last_updated (metrics w)))
           (store w) (conn w) (store_fault w) (log w)).
Proof.
  apply (X2_click_increments_its_counter Button_left "mouse_left"
           (world (boot InputTracker "t0" ∅ None)) 0); compute_done.
Defined.

(** X3: [on_click] has no guard: a press of a tracked button whose
    counter is missing raises [KeyError] and leaves the program state as
    it was.  The exception stops the mouse listener and comes back out
    of [mouse_listener.join()] in the main thread, uncaught: the process
    ends with status 1 and no later event is handled. *)
Theorem X3_click_without_counter_raises p button id s evs :
  exit_code s = None → mouse_alive s = true →
  button_id button = Some id →
  table s !! id = None →
  let s' := step p (Click button true) s in
  on_click button true (world s) = (Raised (KeyError id), world s) ∧
  s' = mkSystem (world s) (saver s) (keyboard_alive s) false (Some 1) ∧
  run p evs s' = s'.
Proof.
  intros He Hm Hb Hc s'. unfold table in Hc.
  assert (H : on_click button true (world s) = (Raised (KeyError id), world s)).
  { destruct button; simpl in Hb; try done; injection Hb as <-; simpl;
      by rewrite increment_ko. }
  assert (Hs' : s' = mkSystem (world s) (saver s) (keyboard_alive s) false (Some 1)).
  { subst s'. unfold step. rewrite He, Hm, H. reflexivity. }
  split; [done|]. split; [done|].
  apply run_exited. by rewrite Hs'.
Qed.

Lemma X3_click_without_counter_raises_witness :
  let s := mkSystem (mkWorld (mkMetrics ∅ None) ∅ None None []) Sleeping true true None in
  let s' := step MetricCollector (Click Button_right true) s in
  on_click Button_right true (world s) = (Raised (KeyError "mouse_right"), world s) ∧
  s' = mkSystem (world s) (saver s) (keyboard_alive s) false (Some 1) ∧
  run MetricCollector [KeyPress "t1" (KeyCode (Some "a")); FlushBegin "t2"] s' = s'.
Proof.
  apply (X3_click_without_counter_raises MetricCollector Button_right "mouse_right"
           (mkSystem (mkWorld (mkMetrics ∅ None) ∅ None None []) Sleeping true true None)
           [KeyPress "t1" (KeyCode (Some "a")); FlushBegin "t2"]);
    reflexivity.
Defined.

(** ** Invariants of the counter table *)

Lemma bump_dom (d : gmap string Z) k : dom (bump d k) = dom d.
Proof.
  unfold bump. destruct (d !! k) as [c|] eqn:Hk; [|done].
  rewrite dom_insert_L. apply elem_of_dom_2 in Hk.
  apply subseteq_union_1_L. by apply singleton_subseteq_l.
Qed.

Lemma bump_bounds (d : gmap string Z) k id c :
  d !! id = Some c → ∃ c', bump d k !! id = Some c' ∧ c ≤ c' ≤ c + 1.
Proof.
  intros Hc. unfold bump. destruct (d !! k) as [ck|] eqn:Hk.
  - destruct (decide (k = id)) as [->|Hne].
    + rewrite lookup_insert_eq. exists (ck + 1). split; [done|].
      rewrite Hk in Hc. injection Hc as ->. lia.
    + rewrite lookup_insert_ne by done. exists c. split; [done|lia].
  - exists c. split; [done|lia].
Qed.

(** X4: no event adds an identifier to the counter table or removes
    one, no counter ever decreases, and a schedule of [n] events raises
    a counter by at most [n]. *)
Theorem X4_table_keys_fixed_counters_grow p evs s :
  dom (table (run p evs s)) = dom (table s) ∧
  ∀ id c, table s !! id = Some c →
    ∃ c', table (run p evs s) !! id = Some c' ∧
          c ≤ c' ≤ c + Z.of_nat (length evs).
Proof.
  revert s. induction evs as [|e evs IH]; intros s.
  { split; [done|]. intros id c Hc. exists c. split; [done|simpl; lia]. }
  change (run p (e :: evs) s) with (run p evs (step p e s)).
  destruct (IH (step p e s)) as [Hdom Hgrow].
  destruct (step_table p e s) as [o Ho].
  split.
  - rewrite Hdom, Ho. destruct o; [apply bump_dom|done].
  - intros id c Hc.
    assert (H1 : ∃ c1, table (step p e s) !! id = Some c1 ∧ c ≤ c1 ≤ c + 1).
    { rewrite Ho. destruct o; [by apply bump_bounds|].
      exists c. split; [done|lia]. }
    destruct H1 as (c1 & Hc1 & ?).
    destruct (Hgrow id c1 Hc1) as (c' & Hc' & ?).
    exists c'. split; [done|]. rewrite length_cons. lia.
Qed.

Lemma rows_le_dom r1 r2 : rows_le r1 r2 → dom r1 ⊆ dom r2.
Proof.
  intros H id Hid. apply elem_of_dom in Hid as [x Hx].
  destruct (H id x Hx) as (y & Hy & _). by apply elem_of_dom_2 in Hy.
Qed.

Lemma step_mouse_alive p e s :
  ALL_INPUTS ⊆ dom (table s) → mouse_alive s = true →
  mouse_alive (step p e s) = true.
Proof.
  intros Hdom Hm.
  destruct e as [now k|button pressed| | | |].
  3-6: match goal with
       | |- context [step _ ?e _] =>
           destruct (step_saver p e s I) as (_ & _ & _ & Hma)
       end; by rewrite Hma.
  - unfold step. destruct (exit_code s); [done|].
    destruct (keyboard_alive s); [|done]. unfold after_key.
    by destruct (key_handler p now k (world s)) as [[?|?|?] w'].
  - unfold step. destruct (exit_code s); [done|]. rewrite Hm.
    assert (Hok : ∀ id, id ∈ ALL_INPUTS →
              mouse_alive (after_click s (increment id (world s))) = true).
    { intros id Hid. apply Hdom, elem_of_dom in Hid as [c Hc].
      unfold table in Hc. by rewrite (increment_ok _ _ c). }
    unfold on_click. destruct pressed, button; try done; apply Hok; compute_done.
Qed.

(** X5: in every state a session can reach, whatever was persisted
    before and whatever the events, every Vocabulary identifier has a
    counter and a durable row, and the mouse listener has not been
    stopped: [on_click] never raises [KeyError]. *)
Theorem X5_vocabulary_always_present p now (rows : gmap string Row) evs :
  let s := run p evs (boot p now rows None) in
  ALL_INPUTS ⊆ dom (table s) ∧
  ALL_INPUTS ⊆ dom (store (world s)) ∧
  mouse_alive s = true.
Proof.
  intros s. subst s.
  assert (Hboot_t : ALL_INPUTS ⊆ dom (table (boot p now rows None))).
  { intros id Hid. apply elem_of_dom. rewrite boot_table_lookup.
    destruct (rows !! id); [done|]. by rewrite decide_True. }
  split; [|split].
  - destruct (X4_table_keys_fixed_counters_grow p evs (boot p now rows None))
      as [Hdom _]. by rewrite Hdom.
  - destruct (boot_consistent p now rows) as [H0 _].
    destruct (run_consistent p evs _ H0) as [_ Hle].
    apply rows_le_dom in Hle. etrans; [|exact Hle].
    destruct (boot_ok p now rows) as [lg ->]. simpl.
    intros id Hid. apply elem_of_dom. rewrite initialized_lookup.
    destruct (rows !! id); [done|]. by rewrite decide_True.
  - assert (Hm0 : mouse_alive (boot p now rows None) = true)
      by (by destruct (boot_ok p now rows) as [lg ->]).
    revert Hboot_t Hm0. generalize (boot p now rows None) as s.
    induction evs as [|e evs IH]; intros s Hd Hm; [done|].
    change (run p (e :: evs) s) with (run p evs (step p e s)).
    apply IH; [|by apply step_mouse_alive].
    destruct (X4_table_keys_fixed_counters_grow p [e] s) as [Hdom _].
    change (run p [e] s) with (step p e s) in Hdom. by rewrite Hdom.
Qed.

(** ** Resolving keys *)

(** X6: a key event without a character ([KeyCode] whose [char] is
    [None]) is never counted and never stops the program, whatever the
    table holds: [input-tracker.py] prints [Unknown key: None],
    [metric-collector.py] does nothing at all. *)
Theorem X6_key_without_character p now w :
  key_handler p now (KeyCode None) w =
  (Return (),
   match p with
   | InputTracker => emit (Print "Unknown key: None") w
   | MetricCollector => w
   end).
Proof. by rewrite key_handler_unknown. Qed.

Lemma replace_from_no_K name :
  Forall (λ c, c ≠ capital_K) (String.list_ascii_of_string name) →
  replace_from "Key." "" 0 name = name.
Proof.
  induction name as [|c name IH]; intros H; [done|].
  simpl in H. apply Forall_cons in H as [Hc H].
  cbn [replace_from].
  assert (Hp : String.prefix "Key." (String c name) = false).
  { cbn [String.prefix]. destruct (Ascii.ascii_dec _ c) as [<-|]; done. }
  rewrite Hp. by rewrite IH.
Qed.

Lemma replace_from_Key_prefix name :
  replace_from "Key." "" 0 ("Key." +:+ name) = replace_from "Key." "" 0 name.
Proof. destruct name; reflexivity. Qed.

(** X7: for a member of pynput's [Key] whose name has no capital K (all
    of them are lower case), stripping [Key.] from its rendering gives
    the name back: the identifier the handlers look up is the name. *)
Theorem X7_key_member_resolves_to_its_name name :
  Forall (λ c, c ≠ capital_K) (String.list_ascii_of_string name) →
  key_str (Key name) = PyStr name.
Proof.
  intros H. unfold key_str, replace. f_equal.
  rewrite replace_from_Key_prefix. by apply replace_from_no_K.
Qed.

Lemma X7_key_member_resolves_to_its_name_witness :
  key_str (Key "page_down") = PyStr "page_down".
Proof.
  apply (X7_key_member_resolves_to_its_name "page_down").
  repeat constructor; discriminate.
Defined.

(** ** The summary *)

Lemma total_key_presses_insert (d : gmap string Z) k c :
  d !! k = None →
  total_key_presses (<[k := c]> d) =
  if startswith k "mouse_" then total_key_presses d
  else total_key_presses d + c.
Proof.
  intros Hk. unfold total_key_presses.
  rewrite map_fold_insert_L; [done| |done].
  intros j1 j2 z1 z2 y _ _ _.
  destruct (startswith j1 "mouse_"), (startswith j2 "mouse_"); lia.
Qed.

(** X8: [+= 1] on a counter raises the summary's total of key presses by
    exactly 1, unless the key starts with [mouse_], in which case the
    total is unchanged; this holds for every key with that prefix, not
    only for the three mouse buttons. *)
Theorem X8_total_key_presses_after_increment (d : gmap string Z) k c :
  d !! k = Some c →
  total_key_presses (<[k := c + 1]> d) =
  if startswith k "mouse_" then total_key_presses d
  else total_key_presses d + 1.
Proof.
  intros Hk.
  assert (H1 : <[k := c + 1]> d = <[k := c + 1]> (delete k d))
    by (by rewrite insert_delete_eq).
  assert (H2 : total_key_presses d = total_key_presses (<[k := c]> (delete k d)))
    by (by rewrite insert_delete_eq, insert_id).
  rewrite H1, H2, !total_key_presses_insert by apply lookup_delete_eq.
  destruct (startswith k "mouse_"); lia.
Qed.

Lemma X8_total_key_presses_after_increment_witness :
  total_key_presses (<["mouse_x1" := 4 + 1]> {[ "mouse_x1" := 4; "a" := 2 ]}) =
  if startswith "mouse_x1" "mouse_" then total_key_presses {[ "mouse_x1" := 4; "a" := 2 ]}
  else total_key_presses {[ "mouse_x1" := 4; "a" := 2 ]} + 1.
Proof.
  apply (X8_total_key_presses_after_increment {[ "mouse_x1" := 4; "a" := 2 ]} "mouse_x1" 4).
  compute_done.
Defined.

(** ** Flushing *)

(** X9: what a call of [save_data] can and cannot do.  It returns
    normally exactly when the store has no fault; it never changes a
    counter; when connecting fails nothing at all changes; when the
    commit fails no durable row changes, although [last_updated] has
    already been set in memory; and a failure of the report query comes
    after the commit, so the rows are persisted even though the call
    raises. *)
Theorem X9_save_data_outcomes now w :
  let r := save_data now w in
  input_counts (metrics r.2) = input_counts (metrics w) ∧
  (r.1 = Return () ↔ store_fault w = None) ∧
  (store_fault w = Some ConnectFails → r.2 = w) ∧
  (store_fault w = Some CommitFails →
     store r.2 = store w ∧ last_updated (metrics r.2) = Some now) ∧
  (store_fault w = Some QueryFails ∨ store_fault w = None →
     store r.2 = saved now (input_counts (metrics w)) (store w) ∧
     last_updated (metrics r.2) = Some now).
Proof.
  cbv zeta. rewrite save_data_spec. unfold save_data_result.
  destruct (store_fault w) as [[]|]; simpl;
    (split; [reflexivity|]); (split; [split; intros; congruence|]);
    (split; [intros; congruence|]);
    (split; [intros; first [congruence | split; reflexivity]|]);
    intros [?|?]; first [congruence | split; reflexivity].
Qed.

Lemma below_table_dom r d : below_table r d → dom r ⊆ dom d.
Proof.
  intros H id Hid. apply elem_of_dom in Hid as [x Hx].
  destruct (H id x Hx) as (c & Hc & _). by apply elem_of_dom_2 in Hc.
Qed.

Lemma save_data_ok now w :
  store_fault w = None →
  save_data now w =
    (Return (),
     mkWorld (mkMetrics (input_counts (metrics w)) (Some now))
       (saved now (input_counts (metrics w)) (store w)) None None
       (log w ++ Committed (saved now (input_counts (metrics w)) (store w))
          :: report_lines (saved now (input_counts (metrics w)) (store w)))).
Proof.
  intros Hf. rewrite save_data_spec. unfold save_data_result. by rewrite Hf.
Qed.

(** X11: two calls of [save_data] with nothing counted in between write
    the same counts; the second only renews the time stamps. *)
Theorem X11_flush_twice_same_counts t1 t2 w :
  store_fault w = None →
  let r1 := save_data t1 w in
  let r2 := save_data t2 r1.2 in
  r1.1 = Return () ∧ r2.1 = Return () ∧
  press_count <$> store r2.2 = press_count <$> store r1.2 ∧
  input_counts (metrics r2.2) = input_counts (metrics w).
Proof.
  intros Hf. cbv zeta. rewrite (save_data_ok t1 w Hf).
  rewrite save_data_ok by reflexivity.
  simpl. split; [reflexivity|]. split; [reflexivity|]. split; [|reflexivity].
  apply map_eq. intros id. rewrite !lookup_fmap, !saved_lookup.
  by destruct (input_counts (metrics w) !! id).
Qed.

Lemma X11_flush_twice_same_counts_witness :
  let w := world (boot InputTracker "t0" ∅ None) in
  let r1 := save_data "t1" w in
  let r2 := save_data "t2" r1.2 in
  r1.1 = Return () ∧ r2.1 = Return () ∧
  press_count <$> store r2.2 = press_count <$> store r1.2 ∧
  input_counts (metrics r2.2) = input_counts (metrics w).
Proof.
  apply (X11_flush_twice_same_counts "t1" "t2" (world (boot InputTracker "t0" ∅ None))).
  compute_done.
Defined.

Lemma run_app p evs1 evs2 s : run p (evs1 ++ evs2) s = run p evs2 (run p evs1 s).
Proof. unfold run. apply foldl_app. Qed.

Lemma run_flush_rows p ts (l : list (string * Z)) s :
  exit_code s = None →
  saver s = Flushing l.*1 ts →
  (∀ k c, (k, c) ∈ l → table s !! k = Some c) →
  run p (replicate (length l) FlushRow) s =
  mkSystem
    (set_conn ((λ rows, foldl (λ acc item, insert_do_update item.1 item.2 ts acc) rows l)
                 <$> conn (world s)) (world s))
    (Flushing [] ts) (keyboard_alive s) (mouse_alive s) None.
Proof.
  revert s. induction l as [|[k c] l IH]; intros s He Hs Hl.
  - destruct s as [[m st [v|] fl lg] sv ka ma ec]; simpl in *; by subst.
  - assert (Hk : table s !! k = Some c) by (apply Hl; left).
    change (run p (replicate (length ((k, c) :: l)) FlushRow) s)
      with (run p (replicate (length l) FlushRow) (step p FlushRow s)).
    assert (Hstep : step p FlushRow s =
              mkSystem (set_conn (insert_do_update k c ts <$> conn (world s)) (world s))
                (Flushing l.*1 ts) (keyboard_alive s) (mouse_alive s) None).
    { unfold step. rewrite He, Hs. rewrite fmap_cons. cbn [fst]. rewrite flush_row_spec.
      unfold table in Hk. rewrite Hk. unfold after_flush. cbn [fst snd].
      unfold set_saver, set_world. cbn [world saver keyboard_alive mouse_alive exit_code].
      by rewrite He. }
    rewrite Hstep, IH; [| reflexivity | reflexivity |].
    + destruct s as [[m st [v|] fl lg] sv ka ma ec]; reflexivity.
    + intros k' c' Hin. unfold table, set_conn. cbn [world metrics].
      apply Hl. by right.
Qed.

Lemma run_saver_dead p n s :
  saver s = SaverDead → run p (replicate n FlushRow ++ [FlushEnd]) s = s.
Proof.
  intros Hs. rewrite run_app.
  assert (H : run p (replicate n FlushRow) s = s).
  { induction n as [|n IH]; [reflexivity|].
    change (run p (replicate (S n) FlushRow) s)
      with (run p (replicate n FlushRow) (step p FlushRow s)).
    assert (Hst : step p FlushRow s = s)
      by (unfold step; rewrite Hs; by destruct (exit_code s)).
    by rewrite Hst. }
  rewrite H. cbn [run foldl]. unfold step. rewrite Hs. by destruct (exit_code s).
Qed.

(** X12: the stretches into which the process model cuts a flush add up
    to [save_data]: when the saving thread wakes up, runs one turn of
    its loop for every counter and finishes, with no other event in
    between, the program is left exactly as by one call of [save_data],
    whatever the state of the store; the thread goes back to sleep when
    the call returned and is dead when it raised, and the listeners are
    untouched. *)
Theorem X12_uninterrupted_flush_is_save_data p now s :
  exit_code s = None →
  saver s = Sleeping →
  let r := save_data now (world s) in
  run p (FlushBegin now :: replicate (size (table s)) FlushRow ++ [FlushEnd]) s =
  mkSystem r.2
    (match r.1 with Return _ => Sleeping | _ => SaverDead end)
    (keyboard_alive s) (mouse_alive s) None.
Proof.
  intros He Hs. cbv zeta. rewrite save_data_spec. unfold save_data_result.
  change (run p (FlushBegin now :: ?l) s) with (run p l (step p (FlushBegin now) s)).
  assert (Hb : step p (FlushBegin now) s =
            after_flush (λ keys, Flushing keys now) s (flush_begin now (world s)))
    by (unfold step; by rewrite He, Hs).
  rewrite Hb, flush_begin_spec.
  destruct (decide (store_fault (world s) = Some ConnectFails)) as [Hc|Hc].
  { rewrite Hc. unfold after_flush. cbn [fst snd].
    rewrite run_saver_dead by reflexivity.
    destruct s as [w sv ka ma ec]; simpl in *; by subst. }
  unfold after_flush. cbn [fst snd].
  rewrite run_app. unfold table at 1.
  rewrite <- length_map_to_list.
  rewrite (run_flush_rows p now (map_to_list (input_counts (metrics (world s)))));
    [| by (unfold set_saver, set_world; simpl) | reflexivity |].
  2:{ intros k c Hin. unfold table, set_saver, set_world. cbn [world metrics input_counts].
      by apply elem_of_map_to_list. }
  cbn [run foldl]. unfold step.
  cbn [exit_code saver set_saver set_world world keyboard_alive mouse_alive].
  rewrite flush_end_spec. fold (saved now (input_counts (metrics (world s))) (store (world s))).
  destruct s as [[m st cn fl lg] sv ka ma ec]. simpl in *. subst.
  destruct fl as [[]|]; try done.
  all: unfold after_flush, saved; simpl; rewrite <- ?app_assoc; reflexivity.
Qed.

Lemma X12_uninterrupted_flush_is_save_data_witness :
  let s := run InputTracker [KeyPress "t1" (KeyCode (Some "a")); SetFault (Some QueryFails)]
             (boot InputTracker "t0" ∅ None) in
  let r := save_data "t2" (world s) in
  run InputTracker (FlushBegin "t2" :: replicate (size (table s)) FlushRow ++ [FlushEnd]) s =
  mkSystem r.2
    (match r.1 with Return _ => Sleeping | _ => SaverDead end)
    (keyboard_alive s) (mouse_alive s) None.
Proof.
  apply (X12_uninterrupted_flush_is_save_data InputTracker "t2"
    (run InputTracker [KeyPress "t1" (KeyCode (Some "a")); SetFault (Some QueryFails)]
       (boot InputTracker "t0" ∅ None))); compute_done.
Defined.

Lemma uninterrupted_flush_ok p t s :
  exit_code s = None → saver s = Sleeping → store_fault (world s) = None →
  run p (FlushBegin t :: replicate (size (table s)) FlushRow ++ [FlushEnd]) s =
  mkSystem (save_data t (world s)).2 Sleeping (keyboard_alive s) (mouse_alive s) None.
Proof.
  intros He Hs Hf. rewrite (save_data_ok t (world s) Hf). cbn [snd].
  change (run p (FlushBegin t :: ?l) s) with (run p l (step p (FlushBegin t) s)).
  assert (Hb : step p (FlushBegin t) s =
            after_flush (λ keys, Flushing keys t) s (flush_begin t (world s)))
    by (unfold step; by rewrite He, Hs).
  rewrite Hb, flush_begin_spec, decide_False by (rewrite Hf; done).
  unfold after_flush. cbn [fst snd].
  rewrite run_app. unfold table at 1.
  rewrite <- length_map_to_list.
  rewrite (run_flush_rows p t (map_to_list (input_counts (metrics (world s)))));
    [| by (unfold set_saver, set_world; simpl) | reflexivity |].
  2:{ intros k c Hin. unfold table, set_saver, set_world. cbn [world metrics input_counts].
      by apply elem_of_map_to_list. }
  cbn [run foldl]. unfold step.
  cbn [exit_code saver set_saver set_world world keyboard_alive mouse_alive].
  rewrite flush_end_spec.
  fold (saved t (input_counts (metrics (world s))) (store (world s))).
  destruct s as [[m st cn fl lg] sv ka ma ec]. simpl in *. subst.
  unfold after_flush, saved; simpl; rewrite <- ?app_assoc; reflexivity.
Qed.

(** X10: a flush that nothing interrupts.  In a state a session has
    reached, with the saving thread asleep, the store working and every
    counter within the INTEGER column, let the saving thread wake up at
    time [t], run one loop turn per counter and finish, with no key
    press, click or fault in between.  Then the durable counts equal the
    counter table, identifier by identifier, every row carries the time
    stamp [t] and fits the column, [last_updated] is [t], the table is
    what it was and the thread is asleep again.  (With key presses
    between the loop turns the rows written can differ from the
    table.) *)
Theorem X10_flush_makes_store_equal_table p now (rows : gmap string Row) evs t :
  let s := run p evs (boot p now rows None) in
  exit_code s = None → saver s = Sleeping →
  store_fault (world s) = None →
  table_fits (table s) →
  let s' := run p (FlushBegin t :: replicate (size (table s)) FlushRow ++ [FlushEnd]) s in
  durable s' = table s' ∧ table s' = table s ∧
  (∀ id r, store (world s') !! id = Some r → row_last_updated r = t) ∧
  column_ok (store (world s')) ∧
  last_updated (metrics (world s')) = Some t ∧
  saver s' = Sleeping.
Proof.
  intros s He Hs Hf Hfit s'. subst s'.
  rewrite (uninterrupted_flush_ok p t s He Hs Hf), (save_data_ok t (world s) Hf).
  unfold durable, table. cbn [snd world saver store metrics input_counts last_updated].
  destruct (boot_consistent p now rows) as [H0 _].
  destruct (run_consistent p evs _ H0) as [[Hb _] _]. fold s in Hb.
  apply below_table_dom in Hb.
  assert (Hin : ∀ id x, store (world s) !! id = Some x →
                        input_counts (metrics (world s)) !! id = None → False).
  { intros id x Hx Hc. apply elem_of_dom_2, Hb, elem_of_dom in Hx as [c Hc']. congruence. }
  split; [|split; [reflexivity|split; [|split; [|done]]]].
  - apply map_eq. intros id. rewrite lookup_fmap, saved_lookup.
    destruct (input_counts (metrics (world s)) !! id) as [c|] eqn:Hc; [done|].
    destruct (store (world s) !! id) as [x|] eqn:Hx; [|done].
    destruct (Hin id x Hx Hc).
  - intros id r. rewrite saved_lookup.
    destruct (input_counts (metrics (world s)) !! id) as [c|] eqn:Hc.
    + by intros [= <-].
    + intros Hx. destruct (Hin id r Hx Hc).
  - intros id r. rewrite saved_lookup.
    destruct (input_counts (metrics (world s)) !! id) as [c|] eqn:Hc.
    + intros [= <-]. exact (Hfit id c Hc).
    + intros Hx. destruct (Hin id r Hx Hc).
Qed.

Lemma X10_flush_makes_store_equal_table_witness :
  let s := run InputTracker [KeyPress "t1" (KeyCode (Some "a"))]
             (boot InputTracker "t0" {[ "a" := mkRow 10 "old" ]} None) in
  let s' := run InputTracker
              (FlushBegin "t2" :: replicate (size (table s)) FlushRow ++ [FlushEnd]) s in
  durable s' = table s' ∧ table s' = table s ∧
  (∀ id r, store (world s') !! id = Some r → row_last_updated r = "t2") ∧
  column_ok (store (world s')) ∧
  last_updated (metrics (world s')) = Some "t2" ∧
  saver s' = Sleeping.
Proof.
  apply (X10_flush_makes_store_equal_table InputTracker "t0"
           {[ "a" := mkRow 10 "old" ]} [KeyPress "t1" (KeyCode (Some "a"))] "t2");
    compute_done.
Defined.

(** ** The report *)

Lemma count_desc_total : Total count_desc.
Proof. intros x y. unfold count_desc. lia. Qed.

Lemma count_desc_trans : Transitive count_desc.
Proof. intros x y z. unfold count_desc. lia. Qed.

(** X13: the report of [_print_current_counts].  With the query working
    it prints the heading and then one line for each row of the store
    (as the open connection sees it) whose count is positive, each such
    row once and no other, in an order of descending counts; it changes
    nothing but the output. *)
Theorem X13_report_lists_positive_rows_descending w :
  store_fault w ≠ Some QueryFails →
  let rows := default (store w) (conn w) in
  _print_current_counts w =
    (Return (),
     mkWorld (metrics w) (store w) (conn w) (store_fault w)
       (log w ++ Print (nl +:+ "Current Input Counts:")
          :: map (λ row, Print (fmt_row row)) (report_rows rows))) ∧
  NoDup (report_rows rows) ∧
  StronglySorted count_desc (report_rows rows) ∧
  ∀ k r, (k, r) ∈ report_rows rows ↔ rows !! k = Some r ∧ 0 < press_count r.
Proof.
  intros Hq rows. split; [by rewrite print_current_counts_ok|].
  unfold report_rows.
  split; [|split].
  - rewrite merge_sort_Permutation. apply NoDup_filter, NoDup_map_to_list.
  - apply Sorted_StronglySorted; [apply count_desc_trans|].
    apply Sorted_merge_sort, count_desc_total.
  - intros k r. rewrite merge_sort_Permutation, list_elem_of_filter.
    rewrite elem_of_map_to_list. simpl. tauto.
Qed.

Lemma X13_report_lists_positive_rows_descending_witness :
  let w := mkWorld (mkMetrics ∅ None)
             {[ "a" := mkRow 2 "t"; "b" := mkRow 0 "t"; "c" := mkRow 5 "t" ]}
             None None [] in
  let rows := default (store w) (conn w) in
  _print_current_counts w =
    (Return (),
     mkWorld (metrics w) (store w) (conn w) (store_fault w)
       (log w ++ Print (nl +:+ "Current Input Counts:")
          :: map (λ row, Print (fmt_row row)) (report_rows rows))) ∧
  NoDup (report_rows rows) ∧
  StronglySorted count_desc (report_rows rows) ∧
  ∀ k r, (k, r) ∈ report_rows rows ↔ rows !! k = Some r ∧ 0 < press_count r.
Proof.
  apply (X13_report_lists_positive_rows_descending
           (mkWorld (mkMetrics ∅ None)
             {[ "a" := mkRow 2 "t"; "b" := mkRow 0 "t"; "c" := mkRow 5 "t" ]}
             None None [])).
  compute_done.
Defined.

(** ** Start-up against a broken store *)

Lemma startup_connect_fails p now rows :
  startup p now (mkWorld (mkMetrics ∅ None) rows None (Some ConnectFails) []) =
  (Raised (OperationalError ConnectFails),
   mkWorld (mkMetrics all_zero None) rows None (Some ConnectFails) []).
Proof.
  destruct p; unfold startup, IT.main_startup, IT.setup_database, MC.setup,
    MC.setup_database.
  all: rewrite bind_eq, modify_eq; wsimpl.
  all: rewrite !bind_eq, connect_ko by reflexivity; reflexivity.
Qed.

Lemma startup_commit_fails p now rows :
  startup p now (mkWorld (mkMetrics ∅ None) rows None (Some CommitFails) []) =
  (Raised (OperationalError CommitFails),
   mkWorld (mkMetrics all_zero None) rows (Some rows) (Some CommitFails) []).
Proof.
  destruct p; unfold startup, IT.main_startup, IT.setup_database, MC.setup,
    MC.setup_database.
  all: rewrite bind_eq, modify_eq; wsimpl.
  all: rewrite !bind_eq, connect_ok by (wsimpl; congruence); wsimpl.
  all: rewrite ?bind_eq, commit_ko by reflexivity; reflexivity.
Qed.

Lemma startup_query_fails p now rows :
  startup p now (mkWorld (mkMetrics ∅ None) rows None (Some QueryFails) []) =
  (Raised (OperationalError QueryFails),
   mkWorld (mkMetrics all_zero None) (initialized now rows)
     (Some (initialized now rows)) (Some QueryFails)
     [Committed rows; Committed (initialized now rows)]).
Proof.
  destruct p; unfold startup, IT.main_startup, IT.setup_database, MC.setup,
    MC.setup_database, MC.load_previous_data.
  all: mrun; rewrite initialize_inputs_connected by done; mrun.
  all: unfold load_data; mrun; rewrite query_ko by reflexivity; reflexivity.
Qed.

(** X14: start-up against a store with a fault.  Whatever the fault,
    start-up raises it, so the process ends with status 1 and no thread
    is started; no stored count has been loaded, the counter table is
    the zero table over the vocabulary.  When connecting or committing
    fails nothing was committed; when only queries fail the vocabulary
    rows had already been committed.  No later event changes anything. *)
Theorem X14_startup_fails_on_broken_store p now (rows : gmap string Row) f evs :
  let s := boot p now rows (Some f) in
  exit_code s = Some 1 ∧
  saver s = SaverDead ∧ keyboard_alive s = false ∧ mouse_alive s = false ∧
  table s = all_zero ∧
  store (world s) = (if decide (f = QueryFails) then initialized now rows else rows) ∧
  log (world s) = (if decide (f = QueryFails)
                   then [Committed rows; Committed (initialized now rows)] else []) ∧
  run p evs s = s.
Proof.
  cbv zeta.
  assert (He : exit_code (boot p now rows (Some f)) ≠ None).
  { unfold boot. destruct f.
    - by rewrite startup_connect_fails.
    - by rewrite startup_commit_fails.
    - by rewrite startup_query_fails. }
  rewrite (run_exited _ _ _ He). clear He.
  unfold boot, table. destruct f.
  - rewrite startup_connect_fails. by repeat split.
  - rewrite startup_commit_fails. by repeat split.
  - rewrite startup_query_fails. by repeat split.
Qed.

(** ** The two programs *)

Lemma unprinted_app lg1 lg2 : unprinted (lg1 ++ lg2) = unprinted lg1 ++ unprinted lg2.
Proof.
  induction lg1 as [|[] lg1 IH]; simpl; [done|done|..]; by rewrite IH.
Qed.

Lemma unprinted_report_lines rows : unprinted (report_lines rows) = [].
Proof.
  unfold report_lines. simpl. induction (report_rows rows); simpl; done.
Qed.

Ltac silent_inj H :=
  match type of H with
  | silent ?w1 = silent ?w2 =>
      let m := fresh "m" in let st := fresh "st" in let cn := fresh "cn" in
      let fl := fresh "fl" in let lg := fresh "lg" in
      let m' := fresh "m" in let st' := fresh "st" in let cn' := fresh "cn" in
      let fl' := fresh "fl" in let lg' := fresh "lg" in
      destruct w1 as [m st cn fl lg], w2 as [m' st' cn' fl' lg'];
      unfold silent in H; cbn [metrics store conn store_fault log] in H;
      injection H as -> -> -> -> H
  end.

Ltac silent_done H :=
  unfold silent, emit, set_metrics, set_store, set_conn;
  cbn [fst snd metrics store conn store_fault log];
  rewrite ?unprinted_app, ?unprinted_report_lines;
  cbn [unprinted]; rewrite ?unprinted_report_lines, ?app_nil_r, ?H; reflexivity.

Lemma save_data_result_silent now w1 w2 :
  silent w1 = silent w2 →
  (save_data_result now w1).1 = (save_data_result now w2).1 ∧
  silent (save_data_result now w1).2 = silent (save_data_result now w2).2.
Proof.
  intros H. silent_inj H. unfold save_data_result.
  cbn [metrics store conn store_fault log].
  match goal with |- context [match ?f with _ => _ end] => destruct f as [[]|] end.
  all: split; [reflexivity | silent_done H].
Qed.

Lemma key_handler_silent now k w1 w2 :
  silent w1 = silent w2 →
  (key_handler InputTracker now k w1).1 = (key_handler MetricCollector now k w2).1 ∧
  silent (key_handler InputTracker now k w1).2 =
  silent (key_handler MetricCollector now k w2).2.
Proof.
  intros H.
  destruct (is_esc k) eqn:Hesc.
  - apply is_esc_true in Hesc as ->. rewrite !key_handler_stop. cbv zeta.
    match goal with
    | |- context [save_data_result now ?a] =>
        match goal with
        | |- context [save_data_result now ?b] =>
            lazymatch a with b => fail | _ => idtac end;
            destruct (save_data_result_silent now a b) as [Ho Hw]
        end
    end.
    { silent_inj H. unfold session_summary.
      cbn [metrics input_counts last_updated].
      match goal with |- context [?d !! "esc"] => destruct (d !! "esc") end;
        silent_done H. }
    match type of Ho with
    | (save_data_result now ?a).1 = (save_data_result now ?b).1 =>
        destruct (save_data_result now a) as [o1 v1];
        destruct (save_data_result now b) as [o2 v2]
    end.
    cbn [fst snd] in Ho, Hw. subst o2.
    destruct o1; cbn [fst snd]; (split; [reflexivity|]); try exact Hw.
    silent_inj Hw. silent_done Hw.
  - assert (Hm : metrics w1 = metrics w2) by (by silent_inj H).
    destruct (contains (input_counts (metrics w1)) (key_str k)) eqn:Hc.
    + destruct (key_str k) as [|id] eqn:Hk; [done|].
      rewrite contains_PyStr in Hc. apply bool_decide_eq_true in Hc as [c Hc].
      rewrite (key_handler_known _ now k w1 id c) by done.
      rewrite (key_handler_known _ now k w2 id c) by (by rewrite <- ?Hm).
      split; [reflexivity|]. silent_inj H. silent_done H.
    + rewrite !key_handler_unknown by (by rewrite <- ?Hm).
      split; [reflexivity|]. silent_inj H. silent_done H.
Qed.

Lemma on_click_silent button pressed w1 w2 :
  silent w1 = silent w2 →
  (on_click button pressed w1).1 = (on_click button pressed w2).1 ∧
  silent (on_click button pressed w1).2 = silent (on_click button pressed w2).2.
Proof.
  intros H. silent_inj H. unfold on_click.
  destruct pressed; [|rewrite !mret_eq; split; [reflexivity | silent_done H]].
  destruct button; try (rewrite !mret_eq; split; [reflexivity | silent_done H]).
  all: match goal with
       | |- context [increment ?id (mkWorld ?m _ _ _ _)] =>
           destruct (input_counts m !! id) as [c|] eqn:Hc;
           [rewrite !(increment_ok id _ c) by exact Hc
           |rewrite !(increment_ko id) by exact Hc]
       end.
  all: split; [reflexivity | silent_done H].
Qed.

Lemma flush_begin_silent now w1 w2 :
  silent w1 = silent w2 →
  (flush_begin now w1).1 = (flush_begin now w2).1 ∧
  silent (flush_begin now w1).2 = silent (flush_begin now w2).2.
Proof.
  intros H. silent_inj H. rewrite !flush_begin_spec.
  cbn [metrics store conn store_fault log].
  destruct (decide _); (split; [reflexivity | silent_done H]).
Qed.

Lemma flush_row_silent k now w1 w2 :
  silent w1 = silent w2 →
  (flush_row k now w1).1 = (flush_row k now w2).1 ∧
  silent (flush_row k now w1).2 = silent (flush_row k now w2).2.
Proof.
  intros H. silent_inj H. rewrite !flush_row_spec.
  cbn [metrics store conn store_fault log].
  destruct (_ !! k); (split; [reflexivity | silent_done H]).
Qed.

Lemma flush_end_silent w1 w2 :
  silent w1 = silent w2 →
  (flush_end w1).1 = (flush_end w2).1 ∧
  silent (flush_end w1).2 = silent (flush_end w2).2.
Proof.
  intros H. silent_inj H. rewrite !flush_end_spec.
  cbn [metrics store conn store_fault log].
  destruct (decide _); [split; [reflexivity | silent_done H]|].
  cbv zeta.
  destruct (decide _); match goal with |- context [match ?c with _ => _ end] =>
    destruct c end; (split; [reflexivity | silent_done H]).
Qed.

Ltac sys_done H :=
  unfold silent_system, set_world, set_saver;
  cbn [world saver keyboard_alive mouse_alive exit_code fst snd];
  by rewrite H.

Lemma step_silent e s1 s2 :
  silent_system s1 = silent_system s2 →
  silent_system (step InputTracker e s1) = silent_system (step MetricCollector e s2).
Proof.
  intros H.
  destruct s1 as [w1 sv1 ka1 ma1 ec1], s2 as [w2 sv2 ka2 ma2 ec2].
  pose proof (f_equal world H) as Hw. pose proof (f_equal saver H) as Hs.
  pose proof (f_equal keyboard_alive H) as Hk. pose proof (f_equal mouse_alive H) as Hm.
  pose proof (f_equal exit_code H) as He. clear H.
  cbn [silent_system world saver keyboard_alive mouse_alive exit_code] in *.
  subst sv1 ka1 ma1 ec1.
  unfold step. cbn [world saver keyboard_alive mouse_alive exit_code].
  destruct ec2; [sys_done Hw|].
  destruct e as [now k|button pressed|now| | |f].
  - destruct ka2; [|sys_done Hw].
    destruct (key_handler_silent now k w1 w2 Hw) as [Ho Hv].
    unfold after_key. rewrite Ho.
    destruct (key_handler MetricCollector now k w2).1;
      sys_done Hv.
  - destruct ma2; [|sys_done Hw].
    destruct (on_click_silent button pressed w1 w2 Hw) as [Ho Hv].
    unfold after_click. rewrite Ho.
    destruct (on_click button pressed w2).1;
      sys_done Hv.
  - destruct sv2; try (sys_done Hw).
    destruct (flush_begin_silent now w1 w2 Hw) as [Ho Hv].
    unfold after_flush. rewrite Ho.
    destruct (flush_begin now w2).1;
      sys_done Hv.
  - destruct sv2 as [|[|k rest] ts|]; try (sys_done Hw).
    destruct (flush_row_silent k ts w1 w2 Hw) as [Ho Hv].
    unfold after_flush. rewrite Ho.
    destruct (flush_row k ts w2).1;
      sys_done Hv.
  - destruct sv2 as [|[|k rest] ts|]; try (sys_done Hw).
    destruct (flush_end_silent w1 w2 Hw) as [Ho Hv].
    unfold after_flush. rewrite Ho.
    destruct (flush_end w2).1;
      sys_done Hv.
  - silent_inj Hw. unfold silent_system, set_world, set_fault, silent. simpl.
    by rewrite Hw.
Qed.

Lemma boot_silent now rows f :
  silent_system (boot InputTracker now rows f) =
  silent_system (boot MetricCollector now rows f).
Proof.
  unfold boot. destruct f as [[]|].
  - by rewrite !startup_connect_fails.
  - by rewrite !startup_commit_fails.
  - by rewrite !startup_query_fails.
  - unfold startup. rewrite IT_main_startup_ok, MC_setup_ok. reflexivity.
Qed.

(** X15: [input-tracker.py] and [metric-collector.py] differ only in
    what they print.  Started on the same store, with the store in the
    same condition, and given the same events, the two programs have the
    same counter table, the same durable rows, the same open
    transaction, the same commits in the same order, the same state of
    the saving thread and of the listeners, and the same exit status. *)
Theorem X15_programs_differ_only_in_output now (rows : gmap string Row) f evs :
  silent_system (run InputTracker evs (boot InputTracker now rows f)) =
  silent_system (run MetricCollector evs (boot MetricCollector now rows f)).
Proof.
  pose proof (boot_silent now rows f) as H.
  revert H. generalize (boot InputTracker now rows f) (boot MetricCollector now rows f).
  induction evs as [|e evs IH]; intros s1 s2 H; [exact H|].
  change (silent_system (run InputTracker evs (step InputTracker e s1)) =
          silent_system (run MetricCollector evs (step MetricCollector e s2))).
  apply IH, step_silent, H.
Qed.
